(** * BoxPacker: packing articles into boxes with the largest differencing method

    A shallow embedding of [BoxPacker.py] (classes [Article], [Box] and
    [BoxPacker]) and of [greedy] from [Benchmark.py], together with the
    properties of the packing they compute.

    Python integers are unbounded, so they are modelled by [Z].  A Python
    list that is only read is a Rocq [list]; a list that is updated by
    index (the array behind [heapq]) is a [list] with stdpp's lookup and
    insert, and an explicit [IndexError] where Python raises one.  Calls
    that can raise return an [outcome]. *)

From stdpp Require Import base list strings gmap pretty sorting.
From Stdlib Require Import ZArith Lia.

Open Scope Z_scope.

(** ** Outcomes of a call *)

(** The exceptions the modelled code can raise. *)
Inductive exn : Type :=
  | ValueError (msg : string)
  | IndexError.

(** A call returns, raises, or (for a loop run with a bound on its
    iterations) exhausts that bound. *)
Inductive outcome (A : Type) : Type :=
  | Returns (a : A)
  | Raises (e : exn)
  | OutOfFuel.

Arguments Returns {A} a.
Arguments Raises {A} e.
Arguments OutOfFuel {A}.

Definition obind {A B : Type} (m : outcome A) (k : A → outcome B) : outcome B :=
  match m with
  | Returns a => k a
  | Raises e => Raises e
  | OutOfFuel => OutOfFuel
  end.

Notation "x ←! m ; k" := (obind m (λ x, k))
  (at level 20, m at level 100, k at level 200, right associativity,
   format "x  ←!  m ;  '/' k").
Notation "' p ←! m ; k" := (obind m (λ p, k))
  (at level 20, p pattern, m at level 100, k at level 200, right associativity,
   format "' p  ←!  m ;  '/' k").

(** Running [f] over a list from left to right, threading the state, as a
    [for] loop does. *)
Fixpoint ofoldl {A S : Type} (f : S → A → outcome S) (s : S) (l : list A) : outcome S :=
  match l with
  | [] => Returns s
  | x :: l' => s' ←! f s x; ofoldl f s' l'
  end.

(** Collecting the results of [f] over a list, left to right. *)
Fixpoint omap {A B : Type} (f : A → outcome B) (l : list A) : outcome (list B) :=
  match l with
  | [] => Returns []
  | x :: l' => y ←! f x; ys ←! omap f l'; Returns (y :: ys)
  end.

(** ** Python built-ins used by the code *)

(** [sum(l)]: a left fold starting from 0. *)
Definition py_sum (l : list Z) : Z := foldl Z.add 0 l.

(** [min(l)] and [max(l)] on integers; both raise [ValueError] on an empty
    sequence. *)
Definition py_min (l : list Z) : outcome Z :=
  match l with
  | [] => Raises (ValueError "min() arg is an empty sequence")
  | x :: l' => Returns (foldl Z.min x l')
  end.

Definition py_max (l : list Z) : outcome Z :=
  match l with
  | [] => Raises (ValueError "max() arg is an empty sequence")
  | x :: l' => Returns (foldl Z.max x l')
  end.

(** [l[i]] for an index [i >= 0]. *)
Definition py_get {A : Type} (l : list A) (i : nat) : outcome A :=
  match l !! i with
  | Some x => Returns x
  | None => Raises IndexError
  end.

(** [l[i] = x] for an index [i >= 0]: Python raises where stdpp's insert
    would leave the list as it is. *)
Definition py_set {A : Type} (l : list A) (i : nat) (x : A) : outcome (list A) :=
  if decide (i < length l)%nat then Returns (<[i:=x]> l) else Raises IndexError.

(** [sorted(l, key=key, reverse=True)].  Python's sort is stable, and with
    [reverse=True] elements of equal key keep their original order; a
    stable sort has one possible result, which this insertion sort
    computes. *)
Section sorted_reverse.
Context {A : Type} (key : A → Z).

Fixpoint insert_desc (x : A) (l : list A) : list A :=
  match l with
  | [] => [x]
  | y :: l' => if decide (key y ≤ key x) then x :: y :: l' else y :: insert_desc x l'
  end.

Fixpoint sorted_reverse (l : list A) : list A :=
  match l with
  | [] => []
  | x :: l' => insert_desc x (sorted_reverse l')
  end.

(** Descending order of the keys. *)
Definition key_ge (x y : A) : Prop := key y ≤ key x.
End sorted_reverse.

(** [min(l, key=key)] on a non-empty list: the first element of least key. *)
Section min_by_key.
Context {A : Type} (key : A → Z).

(** Index of the first element of least key in [x :: l], where [x] sits
    at index [i]. *)
Fixpoint argmin_from (i : nat) (best : nat) (bestkey : Z) (l : list A) : nat :=
  match l with
  | [] => best
  | y :: l' =>
      if decide (key y < bestkey) then argmin_from (S i) i (key y) l'
      else argmin_from (S i) best bestkey l'
  end.

Definition py_argmin (l : list A) : outcome nat :=
  match l with
  | [] => Raises (ValueError "min() arg is an empty sequence")
  | x :: l' => Returns (argmin_from 1 0 (key x) l')
  end.
End min_by_key.

(** ** class Article *)

Record Article : Type := mkArticle { weight_in_grams : Z }.

Global Instance Article_eq_dec : EqDecision Article.
Proof. solve_decision. Defined.

(** [Article.__init__] *)
Definition Article_init (weight : Z) : outcome Article :=
  if decide (weight > 0) then Returns (mkArticle weight)
  else Raises (ValueError ("Weight of article must be at least 1, not " +:+ pretty weight +:+ ".")).

(** [Article.get_weight_in_grams] *)
Definition get_weight_in_grams (a : Article) : Z := weight_in_grams a.

(** [Article.__str__] *)
Definition Article_str (a : Article) : string := pretty (weight_in_grams a).

(** ** class Box *)

Record Box : Type := mkBox {
  box_items : list Article;
  total_weight_in_grams : Z
}.

Global Instance Box_eq_dec : EqDecision Box.
Proof. solve_decision. Defined.

(** [Box.__init__]: the total is computed once, as the sum of the weights. *)
Definition Box_init (items : list Article) : Box :=
  mkBox items (py_sum (get_weight_in_grams <$> items)).

(** [Box.add_article]: appends and adds the weight to the cached total. *)
Definition add_article (b : Box) (article : Article) : Box :=
  mkBox (box_items b ++ [article])
        (total_weight_in_grams b + get_weight_in_grams article).

Definition get_box_items (b : Box) : list Article := box_items b.

Definition get_total_weight_in_grams (b : Box) : Z := total_weight_in_grams b.

(** [Box.combine]: a new box built by the constructor from the
    concatenation of the two item lists. *)
Definition combine (box1 box2 : Box) : Box :=
  Box_init (get_box_items box1 ++ get_box_items box2).

(** [Box.combine_with_other_box] *)
Definition combine_with_other_box (self box2 : Box) : Box :=
  Box_init (box_items self ++ get_box_items box2).

(** [Box.__lt__] *)
Definition Box_lt (b other : Box) : bool :=
  bool_decide (total_weight_in_grams b < total_weight_in_grams other).

(** The invariant of a box: the cached total is the sum of the weights of
    its items. *)
Definition box_consistent (b : Box) : Prop :=
  total_weight_in_grams b = py_sum (get_weight_in_grams <$> box_items b).

(** ** The priority queue: Python's [heapq] on a list

    [heapq] is the standard library's binary min-heap stored in a Python
    list.  The functions below follow [Lib/heapq.py] statement by
    statement; [lt] is the [<] of the stored elements.  Each [while] loop
    takes a bound on its iterations. *)
Section heapq.
Context {A : Type} (lt : A → A → bool).

(** The loop of [_siftdown]: move the parents of [pos] down until
    [newitem] fits, then store it. *)
Fixpoint siftdown_loop (fuel : nat) (heap : list A) (newitem : A)
    (startpos pos : nat) : outcome (list A) :=
  if decide (startpos < pos)%nat then
    match fuel with
    | O => OutOfFuel
    | S fuel' =>
        let parentpos := Nat.shiftr (pos - 1) 1 in
        parent ←! py_get heap parentpos;
        if lt newitem parent then
          heap' ←! py_set heap pos parent;
          siftdown_loop fuel' heap' newitem startpos parentpos
        else py_set heap pos newitem
    end
  else py_set heap pos newitem.

Definition _siftdown (heap : list A) (startpos pos : nat) : outcome (list A) :=
  newitem ←! py_get heap pos;
  siftdown_loop pos heap newitem startpos pos.

(** The loop of [_siftup]: bubble the smaller child up until a leaf is
    reached; returns the list and the position of the empty leaf slot. *)
Fixpoint siftup_loop (fuel : nat) (heap : list A) (endpos pos childpos : nat)
    : outcome (list A * nat) :=
  if decide (childpos < endpos)%nat then
    match fuel with
    | O => OutOfFuel
    | S fuel' =>
        let rightpos := (childpos + 1)%nat in
        childpos' ←!
          (if decide (rightpos < endpos)%nat then
             c ←! py_get heap childpos;
             r ←! py_get heap rightpos;
             Returns (if negb (lt c r) then rightpos else childpos)
           else Returns childpos);
        child ←! py_get heap childpos';
        heap' ←! py_set heap pos child;
        siftup_loop fuel' heap' endpos childpos' (2 * childpos' + 1)%nat
    end
  else Returns (heap, pos).

Definition _siftup (heap : list A) (pos : nat) : outcome (list A) :=
  let endpos := length heap in
  let startpos := pos in
  newitem ←! py_get heap pos;
  '(heap1, pos1) ←! siftup_loop endpos heap endpos pos (2 * pos + 1)%nat;
  heap2 ←! py_set heap1 pos1 newitem;
  _siftdown heap2 startpos pos1.

(** [heapq.heappush] *)
Definition heappush (heap : list A) (item : A) : outcome (list A) :=
  let heap := heap ++ [item] in
  _siftdown heap 0 (length heap - 1).

(** [heapq.heappop]: the popped item and the list that remains. *)
Definition heappop (heap : list A) : outcome (A * list A) :=
  match last heap with
  | None => Raises IndexError
  | Some lastelt =>
      let heap := removelast heap in
      match heap with
      | [] => Returns (lastelt, heap)
      | returnitem :: _ =>
          heap ←! py_set heap 0 lastelt;
          heap ←! _siftup heap 0;
          Returns (returnitem, heap)
      end
  end.

(** [heapq.heapify]: [for i in reversed(range(n//2)): _siftup(x, i)] *)
Definition heapify (x : list A) : outcome (list A) :=
  let n := length x in
  ofoldl _siftup x (reverse (seq 0 (n / 2))).
End heapq.

(** ** class BoxPacker *)

(** The named tuple [WeighedBoxes(weight_difference, boxes)]. *)
Record WeighedBoxes : Type := mkWeighedBoxes {
  weight_difference : Z;
  boxes : list Box
}.

(** [<] on two lists of boxes held by different queue entries.  [Box]
    defines no [__eq__], so two boxes are equal only when they are the
    same object, and every entry of the queue holds boxes created for it
    alone: the comparison of the lists is decided at index 0 by
    [Box.__lt__] (by the lengths when a list is empty). *)
Definition Boxes_lt (l1 l2 : list Box) : bool :=
  match l1, l2 with
  | b1 :: _, b2 :: _ => Box_lt b1 b2
  | [], _ :: _ => true
  | _, [] => false
  end.

(** [<] on the named tuples: by [weight_difference], ties by the lists. *)
Definition WeighedBoxes_lt (a b : WeighedBoxes) : bool :=
  if decide (weight_difference a = weight_difference b)
  then Boxes_lt (boxes a) (boxes b)
  else bool_decide (weight_difference a < weight_difference b).

(** The local function [weigh_boxes] of [__ldm]. *)
Definition weigh_boxes (bs : list Box) : outcome WeighedBoxes :=
  let weights := get_total_weight_in_grams <$> bs in
  mn ←! py_min weights;
  mx ←! py_max weights;
  Returns (mkWeighedBoxes (mn - mx) bs).

(** The local function [combine_boxes] of [__ldm]; [map] over two lists
    stops at the end of the shorter one. *)
Definition combine_boxes (boxes1 boxes2 : list Box) : list Box :=
  let boxes2 := reverse boxes2 in
  let combined_boxes := zip_with combine boxes1 boxes2 in
  sorted_reverse get_total_weight_in_grams combined_boxes.

(** [[Box([]) for _ in range(number_of_boxes)]] *)
Definition empty_boxes (number_of_boxes : Z) : list Box :=
  replicate (Z.to_nat number_of_boxes) (Box_init []).

(** One pass of the body of the seeding [for] loop of [__ldm]. *)
Definition seed_boxes (number_of_boxes : Z) (article : Article) : outcome WeighedBoxes :=
  match empty_boxes number_of_boxes with
  | [] => Raises IndexError
  | b0 :: rest => weigh_boxes (add_article b0 article :: rest)
  end.

(** The list [partially_packed_boxes] when the seeding loop is over. *)
Definition ldm_seed (articles : list Article) (number_of_boxes : Z)
    : outcome (list WeighedBoxes) :=
  let sorted_articles := sorted_reverse get_weight_in_grams articles in
  omap (seed_boxes number_of_boxes) sorted_articles.

(** The body of the [while] loop of [__ldm]. *)
Definition ldm_step (heap : list WeighedBoxes) : outcome (list WeighedBoxes) :=
  '(largest, heap) ←! heappop WeighedBoxes_lt heap;
  '(next_largest, heap) ←! heappop WeighedBoxes_lt heap;
  let combined_boxes := combine_boxes (boxes largest) (boxes next_largest) in
  weighed_combined_boxes ←! weigh_boxes combined_boxes;
  heappush WeighedBoxes_lt heap weighed_combined_boxes.

(** [while len(partially_packed_boxes) > 1: ...] *)
Fixpoint ldm_loop (fuel : nat) (heap : list WeighedBoxes) : outcome (list WeighedBoxes) :=
  if decide (1 < length heap)%nat then
    match fuel with
    | O => OutOfFuel
    | S fuel' => heap' ←! ldm_step heap; ldm_loop fuel' heap'
    end
  else Returns heap.

(** The queue when the [while] loop is first reached. *)
Definition ldm_init (articles : list Article) (number_of_boxes : Z)
    : outcome (list WeighedBoxes) :=
  seeded ←! ldm_seed articles number_of_boxes;
  heapify WeighedBoxes_lt seeded.

(** [BoxPacker.__ldm] *)
Definition ldm (articles : list Article) (number_of_boxes : Z) : outcome (list Box) :=
  heap ←! ldm_init articles number_of_boxes;
  heap ←! ldm_loop (length heap) heap;
  '(final, _) ←! heappop WeighedBoxes_lt heap;
  Returns (boxes final).

(** [BoxPacker.pack] *)
Definition pack (articles : list Article) (number_of_boxes : Z) : outcome (list Box) :=
  match articles with
  | [] => Returns (empty_boxes number_of_boxes)
  | _ :: _ =>
      if decide (number_of_boxes < 1) then
        Raises (ValueError ("Number of boxes must be at least 1, not "
                            +:+ pretty number_of_boxes +:+ "."))
      else if decide (number_of_boxes = 1) then Returns [Box_init articles]
      else ldm articles number_of_boxes
  end.

(** ** [greedy] of [Benchmark.py] *)

(** One pass of the placing loop: the first box of least total weight
    receives the article. *)
Definition greedy_place (bs : list Box) (article : Article) : outcome (list Box) :=
  i ←! py_argmin get_total_weight_in_grams bs;
  least_heavy_box ←! py_get bs i;
  Returns (<[i := add_article least_heavy_box article]> bs).

Definition greedy (articles : list Article) (number_of_boxes : Z) : outcome (list Box) :=
  ofoldl greedy_place (empty_boxes number_of_boxes)
         (sorted_reverse get_weight_in_grams articles).

(** The spread of a packing: heaviest total minus lightest total. *)
Definition spread (bs : list Box) : outcome Z :=
  let weights := get_total_weight_in_grams <$> bs in
  mx ←! py_max weights;
  mn ←! py_min weights;
  Returns (mx - mn).

(** ** Notions the properties are stated with *)

(** The articles of a packing, box after box. *)
Definition packed_items (bs : list Box) : list Article :=
  mjoin (get_box_items <$> bs).

(** The sum of the total weights of the boxes of a packing. *)
Definition packed_weight (bs : list Box) : Z :=
  py_sum (get_total_weight_in_grams <$> bs).

(** The boxes of a list are in descending order of total weight. *)
Definition boxes_descending (bs : list Box) : Prop :=
  Sorted (key_ge get_total_weight_in_grams) bs.

(** The invariant of the priority queue stated in [__ldm]: every list of
    boxes in the queue is in descending order of total weight. *)
Definition queue_descending (heap : list WeighedBoxes) : Prop :=
  Forall (λ wb, boxes_descending (boxes wb)) heap.

(** The queues the [while] loop of [__ldm] goes through: [ldm_reaches h h']
    when, started with queue [h], the loop has queue [h'] at the start of
    one of its iterations (or when it ends). *)
Inductive ldm_reaches : list WeighedBoxes → list WeighedBoxes → Prop :=
  | ldm_reaches_start (h : list WeighedBoxes) : ldm_reaches h h
  | ldm_reaches_step (h h1 h2 : list WeighedBoxes) :
      (1 < length h)%nat →
      ldm_step h = Returns h1 →
      ldm_reaches h1 h2 →
      ldm_reaches h h2.

(** The articles held by the whole queue. *)
Definition queue_items (heap : list WeighedBoxes) : list Article :=
  mjoin ((λ wb, packed_items (boxes wb)) <$> heap).

(** What holds of every entry of the queue of a run with [n] boxes: it has
    [n] boxes, each with a total that matches its items, in descending
    order of total weight. *)
Definition entry_inv (n : nat) (wb : WeighedBoxes) : Prop :=
  length (boxes wb) = n
  ∧ Forall box_consistent (boxes wb)
  ∧ boxes_descending (boxes wb).

(** The boxes the seeding loop builds for [article]. *)
Definition seeded_boxes (number_of_boxes : Z) (article : Article) : list Box :=
  add_article (Box_init []) article
    :: replicate (Z.to_nat number_of_boxes - 1) (Box_init []).

(** The articles with the weights [ws]. *)
Definition articles_of (ws : list Z) : list Article := mkArticle <$> ws.

(** The scenario with weights 900, 800, 700, 600, 500 and two boxes, as
    the specification words it: the spread of the packing [pack] returns is 0 or
    100 and at most the spread of the packing [greedy] returns. *)
Definition scenario_claim : Prop :=
  ∃ bs s gs t,
    pack (articles_of [900; 800; 700; 600; 500]) 2 = Returns bs
    ∧ spread bs = Returns s
    ∧ greedy (articles_of [900; 800; 700; 600; 500]) 2 = Returns gs
    ∧ spread gs = Returns t
    ∧ (s = 0 ∨ s = 100)
    ∧ s ≤ t.

(** ** Boxes as Python objects

    A [Box] object holds a reference to a list object and a cached total;
    [Box.__init__] keeps the reference it is given and [Box.add_article]
    appends to that list in place.  The store below holds the list
    objects and the box objects by reference, so that what a call changes
    and what it leaves alone can be stated.  The functions return [None]
    on a reference that is not in the store, which a Python program
    cannot hold. *)
Module Objects.

Definition ref : Type := positive.

Record BoxObject : Type := mkBoxObject {
  box_items_ref : ref;
  total_weight_field : Z
}.

Record Store : Type := mkStore {
  store_lists : gmap ref (list Article);
  store_boxes : gmap ref BoxObject
}.

(** A new list object, as an expression such as [l1 + l2] creates. *)
Definition new_list (σ : Store) (l : list Article) : Store * ref :=
  let r := fresh (dom (store_lists σ)) in
  (mkStore (<[r:=l]> (store_lists σ)) (store_boxes σ), r).

(** [Box(box_items)]: a new box object that keeps the reference. *)
Definition Box_new (σ : Store) (box_items : ref) : option (Store * ref) :=
  l ← store_lists σ !! box_items;
  let b := fresh (dom (store_boxes σ)) in
  Some (mkStore (store_lists σ)
          (<[b := mkBoxObject box_items (py_sum (get_weight_in_grams <$> l))]>
             (store_boxes σ)), b).

(** [box.add_article(article)]: changes the list object and the box object. *)
Definition Box_add_article (σ : Store) (box : ref) (article : Article) : option Store :=
  bo ← store_boxes σ !! box;
  l ← store_lists σ !! box_items_ref bo;
  Some (mkStore (<[box_items_ref bo := l ++ [article]]> (store_lists σ))
          (<[box := mkBoxObject (box_items_ref bo)
                      (total_weight_field bo + get_weight_in_grams article)]>
             (store_boxes σ))).

(** [Box.combine(box1, box2)] *)
Definition Box_combine (σ : Store) (box1 box2 : ref) : option (Store * ref) :=
  b1 ← store_boxes σ !! box1;
  l1 ← store_lists σ !! box_items_ref b1;
  b2 ← store_boxes σ !! box2;
  l2 ← store_lists σ !! box_items_ref b2;
  let '(σ1, r) := new_list σ (l1 ++ l2) in
  Box_new σ1 r.

(** The box a reference stands for: its items and its cached total. *)
Definition box_at (σ : Store) (box : ref) : option Box :=
  bo ← store_boxes σ !! box;
  l ← store_lists σ !! box_items_ref bo;
  Some (mkBox l (total_weight_field bo)).

(** A store with two boxes: box 1 holds articles of 300 and 200 grams,
    box 2 an article of 450 grams. *)
Definition example_store : Store :=
  mkStore
    {[ 1%positive := articles_of [300; 200]; 2%positive := articles_of [450] ]}
    {[ 1%positive := mkBoxObject 1%positive 500;
       2%positive := mkBoxObject 2%positive 450 ]}.

(** The store reached from [example_store] by [b = Box(l)] on the list [l]
    that box 2 holds, then [b.add_article(Article(80))]: box 2 and the new
    box 3 hold the same list object, now with the articles of 450 and 80
    grams, and box 2 still has the total 450. *)
Definition stale_store : Store :=
  mkStore
    {[ 1%positive := articles_of [300; 200]; 2%positive := articles_of [450; 80] ]}
    {[ 1%positive := mkBoxObject 1%positive 500;
       2%positive := mkBoxObject 2%positive 450;
       3%positive := mkBoxObject 2%positive 530 ]}.

End Objects.

(** [Box.combine] as the specification words it, on the store: for every
    two boxes the call returns a box whose items are the items of the
    first followed by the items of the second and whose total weight is
    the sum of the two totals, and both boxes are after the call what
    they were before. *)
Definition combine_claim : Prop :=
  ∀ (σ : Objects.Store) (a b : Objects.ref) (va vb : Box),
    Objects.box_at σ a = Some va →
    Objects.box_at σ b = Some vb →
    ∃ σ' c vc,
      Objects.Box_combine σ a b = Some (σ', c)
      ∧ Objects.box_at σ' c = Some vc
      ∧ get_box_items vc = get_box_items va ++ get_box_items vb
      ∧ get_total_weight_in_grams vc
        = get_total_weight_in_grams va + get_total_weight_in_grams vb
      ∧ Objects.box_at σ' a = Some va
      ∧ Objects.box_at σ' b = Some vb.

(** ** Notions for the further properties *)

(** The weight of the heaviest article of a list (0 for the empty list). *)
Definition heaviest (articles : list Article) : Z :=
  foldr (λ a m, Z.max (get_weight_in_grams a) m) 0 articles.

(** No two boxes of the list differ in total weight by more than [W]. *)
Definition within (W : Z) (bs : list Box) : Prop :=
  ∀ b1 b2, b1 ∈ bs → b2 ∈ bs →
    get_total_weight_in_grams b1 - get_total_weight_in_grams b2 ≤ W.

(** The entry of the queue is what [weigh_boxes] makes of its boxes: its
    priority is the lightest total minus the heaviest total. *)
Definition entry_weighed (wb : WeighedBoxes) : Prop :=
  weigh_boxes (boxes wb) = Returns wb.

(** ** The order of the priority queue

    The list behind [heapq] is read as a binary tree: the children of
    position [p] are the positions [2p+1] and [2p+2]. *)
Section heap_order.
Context {A : Type} (lt : A → A → bool).

(** [x] does not come after [y]: [y < x] is false. *)
Definition not_after (x y : A) : Prop := lt y x = false.

(** [<] is a strict weak order. *)
Definition strict_weak_order : Prop :=
  (∀ x, lt x x = false)
  ∧ (∀ x y, lt x y = true → lt y x = false)
  ∧ (∀ x y z, not_after x y → not_after y z → not_after x z).

Definition child_of (p c : nat) : Prop :=
  c = (2 * p + 1)%nat ∨ c = (2 * p + 2)%nat.

(** The positions of the subtree rooted at [s]. *)
Inductive below (s : nat) : nat → Prop :=
  | below_root : below s s
  | below_child (p c : nat) : below s p → child_of p c → below s c.

(** The heap order holds between every position from [s] on and its
    children. *)
Definition heap_from (s : nat) (h : list A) : Prop :=
  ∀ p c x y, (s ≤ p)%nat → child_of p c →
    h !! p = Some x → h !! c = Some y → not_after x y.

(** The list is a heap: no element comes after one of its children. *)
Definition is_heap (h : list A) : Prop := heap_from 0 h.

(** The heap order from [s] on, but for the element at [pos] and its
    parent. *)
Definition heap_hole (s pos : nat) (h : list A) : Prop :=
  ∀ p c x y, (s ≤ p)%nat → child_of p c → c ≠ pos →
    h !! p = Some x → h !! c = Some y → not_after x y.

(** The parent of [pos] does not come after the children of [pos]. *)
Definition heap_grand (s pos : nat) (h : list A) : Prop :=
  ∀ q c x y, (s ≤ q)%nat → child_of q pos → child_of pos c →
    h !! q = Some x → h !! c = Some y → not_after x y.

(** The heap order from [s] on, but for the element at [pos] and its
    children when [pos] is [s] itself. *)
Definition heap_sinking (s pos : nat) (h : list A) : Prop :=
  ∀ p c x y, (s ≤ p)%nat → child_of p c → (p = pos → (s < pos)%nat) →
    h !! p = Some x → h !! c = Some y → not_after x y.
End heap_order.

(** ** Notions for packings with no more articles than boxes *)

(** The box holds at most one article. *)
Definition lone (b : Box) : Prop := (length (box_items b) ≤ 1)%nat.

(** The boxes are consistent, each holds at most one article, and every
    article in them has a positive weight. *)
Definition lone_boxes (bs : list Box) : Prop :=
  Forall box_consistent bs
  ∧ Forall lone bs
  ∧ Forall (λ a, 0 < get_weight_in_grams a) (packed_items bs).

(** * Properties *)

(** ** Outcomes *)

Lemma py_get_Returns {A : Type} (l : list A) (i : nat) :
  (i < length l)%nat → ∃ x, l !! i = Some x ∧ py_get l i = Returns x.
Proof.
  intros Hi. destruct (lookup_lt_is_Some_2 l i Hi) as [x Hx].
  exists x. split; [done|]. unfold py_get. by rewrite Hx.
Qed.

Lemma py_set_Returns {A : Type} (l : list A) (i : nat) (x : A) :
  (i < length l)%nat → py_set l i x = Returns (<[i:=x]> l).
Proof. intros Hi. unfold py_set. by rewrite decide_True. Qed.

(** ** Sums *)

Lemma foldl_add_shift (l : list Z) (a : Z) : foldl Z.add a l = a + py_sum l.
Proof.
  unfold py_sum. revert a. induction l as [|x l IH]; intros a; simpl; [lia|].
  rewrite (IH (a + x)), (IH (0 + x)). lia.
Qed.

Lemma py_sum_nil : py_sum [] = 0.
Proof. reflexivity. Qed.

Lemma py_sum_cons (x : Z) (l : list Z) : py_sum (x :: l) = x + py_sum l.
Proof. unfold py_sum at 1. simpl. by rewrite foldl_add_shift. Qed.

Lemma py_sum_app (l1 l2 : list Z) : py_sum (l1 ++ l2) = py_sum l1 + py_sum l2.
Proof.
  induction l1 as [|x l1 IH]; simpl; [by rewrite py_sum_nil|].
  rewrite !py_sum_cons, IH. lia.
Qed.

Global Instance py_sum_Permutation : Proper (Permutation ==> eq) py_sum.
Proof.
  intros l1 l2 Hp. induction Hp as [|x l1 l2 _ IH|x y l|l1 l2 l3 _ IH1 _ IH2].
  - done.
  - by rewrite !py_sum_cons, IH.
  - rewrite !py_sum_cons. lia.
  - by rewrite IH1.
Qed.

(** ** [sorted(..., reverse=True)] *)

Section sorted_reverse_facts.
Context {A : Type} (key : A → Z).

Lemma insert_desc_Permutation (x : A) (l : list A) : insert_desc key x l ≡ₚ x :: l.
Proof.
  induction l as [|y l IH]; simpl; [done|].
  case_decide; [done|]. rewrite IH. apply perm_swap.
Qed.

Lemma sorted_reverse_Permutation (l : list A) : sorted_reverse key l ≡ₚ l.
Proof.
  induction l as [|x l IH]; simpl; [done|].
  by rewrite insert_desc_Permutation, IH.
Qed.

Lemma length_sorted_reverse (l : list A) : length (sorted_reverse key l) = length l.
Proof. apply Permutation_length, sorted_reverse_Permutation. Qed.

Lemma insert_desc_Sorted (x : A) (l : list A) :
  Sorted (key_ge key) l → Sorted (key_ge key) (insert_desc key x l).
Proof.
  induction 1 as [|y l Hl IH Hhd]; simpl; [by repeat constructor|].
  case_decide as Hxy.
  - by repeat constructor.
  - constructor; [done|].
    destruct Hhd as [|z l' Hyz]; simpl.
    + constructor. unfold key_ge. lia.
    + case_decide; constructor; unfold key_ge in *; lia.
Qed.

Lemma sorted_reverse_Sorted (l : list A) : Sorted (key_ge key) (sorted_reverse key l).
Proof.
  induction l as [|x l IH]; simpl; [constructor|]. by apply insert_desc_Sorted.
Qed.

End sorted_reverse_facts.

(** ** The priority queue keeps its elements

    None of the claims depends on the order in which the queue yields its
    entries, only on the queue handing back what was put into it: every
    operation returns, and the list it leaves is a permutation of what the
    operation should hold. *)

Section heapq_facts.
Context {A : Type} (lt : A → A → bool).

Lemma shiftr_parent_lt (pos : nat) : (0 < pos)%nat → (Nat.shiftr (pos - 1) 1 < pos)%nat.
Proof.
  intros Hpos. rewrite Nat.shiftr_div_pow2. change (2 ^ 1)%nat with 2%nat.
  assert ((pos - 1) / 2 ≤ pos - 1)%nat by (apply Nat.Div0.div_le_upper_bound; lia).
  lia.
Qed.

Lemma siftdown_loop_Returns (fuel : nat) (heap : list A) (newitem : A)
    (startpos pos : nat) :
  (pos < length heap)%nat → (pos ≤ fuel)%nat →
  ∃ heap', siftdown_loop lt fuel heap newitem startpos pos = Returns heap'
           ∧ heap' ≡ₚ <[pos:=newitem]> heap.
Proof.
  revert heap pos. induction fuel as [|fuel IH]; intros heap pos Hlen Hfuel.
  - cbn [siftdown_loop]. rewrite decide_False by lia.
    rewrite py_set_Returns by done. eauto.
  - cbn [siftdown_loop]. case_decide as Hpos; [|rewrite py_set_Returns by done; eauto].
    pose proof (shiftr_parent_lt pos ltac:(lia)) as Hpar.
    set (parentpos := Nat.shiftr (pos - 1) 1) in *.
    destruct (py_get_Returns heap parentpos ltac:(lia)) as (parent & Hparent & ->).
    simpl. destruct (lt newitem parent); [|rewrite py_set_Returns by done; eauto].
    rewrite py_set_Returns by done. simpl.
    destruct (IH (<[pos:=parent]> heap) parentpos) as (heap' & -> & Hperm).
    { rewrite length_insert. lia. }
    { lia. }
    exists heap'. split; [done|]. rewrite Hperm.
    rewrite <-(list_insert_insert_eq heap pos parent newitem).
    apply Permutation_insert_swap.
    + apply list_lookup_insert_eq. done.
    + rewrite list_lookup_insert_ne by lia. done.
Qed.

Lemma siftdown_Returns (heap : list A) (startpos pos : nat) :
  (pos < length heap)%nat →
  ∃ heap', _siftdown lt heap startpos pos = Returns heap' ∧ heap' ≡ₚ heap.
Proof.
  intros Hlen. unfold _siftdown.
  destruct (py_get_Returns heap pos Hlen) as (newitem & Hnew & ->). simpl.
  destruct (siftdown_loop_Returns pos heap newitem startpos pos) as (heap' & -> & Hperm);
    [done..|].
  exists heap'. split; [done|]. by rewrite Hperm, list_insert_id.
Qed.

Lemma siftup_loop_Returns (fuel : nat) (heap : list A) (pos childpos : nat) :
  (pos < length heap)%nat → (pos < childpos)%nat →
  (length heap ≤ fuel + childpos)%nat →
  ∃ heap' pos',
    siftup_loop lt fuel heap (length heap) pos childpos = Returns (heap', pos')
    ∧ (pos' < length heap')%nat
    ∧ ∀ x, <[pos':=x]> heap' ≡ₚ <[pos:=x]> heap.
Proof.
  revert heap pos childpos.
  induction fuel as [|fuel IH]; intros heap pos childpos Hpos Hchild Hfuel.
  - cbn [siftup_loop]. rewrite decide_False by lia. eauto.
  - cbn [siftup_loop]. case_decide as Hend; [|eauto].
    assert (∃ childpos', (childpos ≤ childpos' < length heap)%nat ∧
      (if decide (childpos + 1 < length heap)%nat
       then c ←! py_get heap childpos;
            r ←! py_get heap (childpos + 1)%nat;
            Returns (if negb (lt c r) then (childpos + 1)%nat else childpos)
       else Returns childpos) = Returns childpos') as (childpos' & Hc' & ->).
    { case_decide as Hright; [|exists childpos; split; [lia|done]].
      destruct (py_get_Returns heap childpos Hend) as (c & _ & ->).
      destruct (py_get_Returns heap (childpos + 1)%nat Hright) as (r & _ & ->).
      cbn [obind]. destruct (negb (lt c r)); eexists; (split; [|done]); lia. }
    cbn [obind].
    destruct (py_get_Returns heap childpos' ltac:(lia)) as (child & Hchild' & ->).
    cbn [obind]. rewrite py_set_Returns by done. cbn [obind].
    destruct (IH (<[pos:=child]> heap) childpos' (2 * childpos' + 1)%nat)
      as (heap' & pos' & Hrun & Hpos' & Hperm).
    { rewrite length_insert. lia. }
    { lia. }
    { rewrite length_insert. lia. }
    rewrite length_insert in Hrun. rewrite Hrun.
    exists heap', pos'. split; [done|]. split; [done|].
    intros x. rewrite Hperm.
    rewrite <-(list_insert_insert_eq heap pos child x).
    apply Permutation_insert_swap.
    + apply list_lookup_insert_eq. done.
    + rewrite list_lookup_insert_ne by lia. done.
Qed.

Lemma siftup_Returns (heap : list A) (pos : nat) :
  (pos < length heap)%nat →
  ∃ heap', _siftup lt heap pos = Returns heap' ∧ heap' ≡ₚ heap.
Proof.
  intros Hlen. unfold _siftup.
  destruct (py_get_Returns heap pos Hlen) as (newitem & Hnew & ->). cbn [obind].
  destruct (siftup_loop_Returns (length heap) heap pos (2 * pos + 1)%nat)
    as (heap1 & pos1 & -> & Hpos1 & Hperm); [done|lia|lia|].
  cbn [obind]. rewrite py_set_Returns by done. cbn [obind].
  destruct (siftdown_Returns (<[pos1:=newitem]> heap1) pos pos1)
    as (heap' & -> & Hperm').
  { by rewrite length_insert. }
  exists heap'. split; [done|].
  by rewrite Hperm', Hperm, list_insert_id.
Qed.

Lemma heappush_Returns (heap : list A) (item : A) :
  ∃ heap', heappush lt heap item = Returns heap' ∧ heap' ≡ₚ item :: heap.
Proof.
  unfold heappush.
  destruct (siftdown_Returns (heap ++ [item]) 0 (length (heap ++ [item]) - 1))
    as (heap' & -> & Hperm).
  { rewrite length_app. simpl. lia. }
  exists heap'. split; [done|].
  rewrite Hperm. symmetry. apply Permutation_cons_append.
Qed.

Lemma last_removelast (heap : list A) (x : A) :
  last heap = Some x → heap = removelast heap ++ [x].
Proof.
  intros Hlast. destruct (decide (heap = [])) as [->|Hne]; [done|].
  rewrite (app_removelast_last x Hne) at 1. f_equal. f_equal.
  rewrite last_lookup in Hlast.
  destruct heap as [|y heap] using rev_ind; [done|].
  rewrite List.last_last. rewrite length_app in Hlast. simpl in Hlast.
  rewrite lookup_app_r in Hlast by lia.
  replace (Init.Nat.pred (length heap + 1) - length heap)%nat with 0%nat in Hlast by lia.
  simpl in Hlast. congruence.
Qed.

Lemma heappop_Returns (heap : list A) :
  heap ≠ [] →
  ∃ item heap', heappop lt heap = Returns (item, heap') ∧ item :: heap' ≡ₚ heap.
Proof.
  intros Hne. unfold heappop.
  destruct (last heap) as [lastelt|] eqn:Hlast.
  2:{ apply last_None in Hlast. done. }
  apply last_removelast in Hlast.
  destruct (removelast heap) as [|returnitem rest] eqn:Hrem.
  - exists lastelt, []. split; [done|]. by rewrite Hlast.
  - rewrite py_set_Returns by (simpl; lia). simpl.
    destruct (siftup_Returns (lastelt :: rest) 0) as (heap' & -> & Hperm);
      [simpl; lia|].
    exists returnitem, heap'. split; [done|].
    rewrite Hperm, Hlast. simpl. f_equiv. apply Permutation_cons_append.
Qed.

Lemma ofoldl_siftup_Returns (idx : list nat) (heap : list A) :
  Forall (λ i, i < length heap)%nat idx →
  ∃ heap', ofoldl (_siftup lt) heap idx = Returns heap' ∧ heap' ≡ₚ heap.
Proof.
  revert heap. induction idx as [|i idx IH]; intros heap Hidx; simpl; [eauto|].
  apply Forall_cons in Hidx as [Hi Hidx].
  destruct (siftup_Returns heap i Hi) as (heap1 & -> & Hperm1). simpl.
  destruct (IH heap1) as (heap' & -> & Hperm).
  { rewrite (Permutation_length Hperm1). done. }
  exists heap'. split; [done|]. by rewrite Hperm.
Qed.

Lemma heapify_Returns (x : list A) :
  ∃ heap, heapify lt x = Returns heap ∧ heap ≡ₚ x.
Proof.
  unfold heapify. apply ofoldl_siftup_Returns.
  apply Forall_forall. intros i Hi.
  apply elem_of_reverse, elem_of_seq in Hi.
  assert (length x / 2 ≤ length x)%nat by (apply Nat.Div0.div_le_upper_bound; lia).
  lia.
Qed.
End heapq_facts.

(** ** Boxes *)

Lemma Box_init_consistent (items : list Article) : box_consistent (Box_init items).
Proof. reflexivity. Qed.

Lemma add_article_consistent (b : Box) (a : Article) :
  box_consistent b → box_consistent (add_article b a).
Proof.
  unfold box_consistent, add_article. cbn [box_items total_weight_in_grams].
  intros ->. rewrite fmap_app, py_sum_app. cbn [fmap list_fmap].
  by rewrite py_sum_cons, py_sum_nil, Z.add_0_r.
Qed.

Lemma combine_consistent (b1 b2 : Box) : box_consistent (combine b1 b2).
Proof. apply Box_init_consistent. Qed.

Lemma combine_total (b1 b2 : Box) :
  box_consistent b1 → box_consistent b2 →
  total_weight_in_grams (combine b1 b2)
  = total_weight_in_grams b1 + total_weight_in_grams b2.
Proof.
  unfold box_consistent, combine, get_box_items. simpl. intros -> ->.
  by rewrite fmap_app, py_sum_app.
Qed.

Global Instance packed_items_Permutation : Proper (Permutation ==> Permutation) packed_items.
Proof. intros bs1 bs2 Hp. unfold packed_items. by rewrite Hp. Qed.

Global Instance queue_items_Permutation : Proper (Permutation ==> Permutation) queue_items.
Proof. intros h1 h2 Hp. unfold queue_items. by rewrite Hp. Qed.

Lemma packed_items_cons (b : Box) (bs : list Box) :
  packed_items (b :: bs) = box_items b ++ packed_items bs.
Proof. reflexivity. Qed.

Lemma queue_items_cons (wb : WeighedBoxes) (heap : list WeighedBoxes) :
  queue_items (wb :: heap) = packed_items (boxes wb) ++ queue_items heap.
Proof. reflexivity. Qed.

Lemma packed_items_replicate_empty (n : nat) :
  packed_items (replicate n (Box_init [])) = [].
Proof. induction n as [|n IH]; [done|]. by rewrite replicate_S, packed_items_cons, IH. Qed.

(** The total weight of a packing of consistent boxes is the weight of its
    articles. *)
Lemma packed_weight_items (bs : list Box) :
  Forall box_consistent bs →
  packed_weight bs = py_sum (get_weight_in_grams <$> packed_items bs).
Proof.
  unfold packed_weight. induction 1 as [|b bs Hb _ IH]; [done|].
  rewrite fmap_cons, py_sum_cons, packed_items_cons, fmap_app, py_sum_app, IH.
  unfold get_total_weight_in_grams. by rewrite Hb.
Qed.

(** ** Combining two lists of boxes *)

Lemma packed_items_zip_combine (l1 l2 : list Box) :
  length l1 = length l2 →
  packed_items (zip_with combine l1 l2) ≡ₚ packed_items l1 ++ packed_items l2.
Proof.
  revert l2. induction l1 as [|b1 l1 IH]; intros [|b2 l2] Hlen; try done.
  simpl in Hlen. injection Hlen as Hlen. simpl.
  rewrite !packed_items_cons, (IH l2 Hlen). simpl. unfold get_box_items.
  rewrite <-!(assoc_L (++)). f_equiv. rewrite !(assoc_L (++)). f_equiv.
  apply Permutation_app_comm.
Qed.

Lemma combine_boxes_items (boxes1 boxes2 : list Box) :
  length boxes1 = length boxes2 →
  packed_items (combine_boxes boxes1 boxes2)
  ≡ₚ packed_items boxes1 ++ packed_items boxes2.
Proof.
  intros Hlen. unfold combine_boxes.
  rewrite sorted_reverse_Permutation, packed_items_zip_combine
    by (by rewrite length_reverse).
  by rewrite reverse_Permutation.
Qed.

Lemma combine_boxes_length (boxes1 boxes2 : list Box) :
  length boxes1 = length boxes2 →
  length (combine_boxes boxes1 boxes2) = length boxes1.
Proof.
  intros Hlen. unfold combine_boxes.
  rewrite length_sorted_reverse, length_zip_with, length_reverse. lia.
Qed.

Lemma combine_boxes_descending (boxes1 boxes2 : list Box) :
  boxes_descending (combine_boxes boxes1 boxes2).
Proof. apply sorted_reverse_Sorted. Qed.

Lemma combine_boxes_consistent (boxes1 boxes2 : list Box) :
  Forall box_consistent (combine_boxes boxes1 boxes2).
Proof.
  unfold combine_boxes. rewrite sorted_reverse_Permutation.
  apply Forall_forall. intros b Hb.
  apply elem_of_lookup_zip_with in Hb as (i & b1 & b2 & -> & _ & _).
  apply combine_consistent.
Qed.

Lemma combine_boxes_entry_inv (n : nat) (a b : WeighedBoxes) (d : Z) :
  entry_inv n a → entry_inv n b →
  entry_inv n (mkWeighedBoxes d (combine_boxes (boxes a) (boxes b))).
Proof.
  intros (Ha & _ & _) (Hb & _ & _). unfold entry_inv. simpl. split_and!.
  - rewrite combine_boxes_length; congruence.
  - apply combine_boxes_consistent.
  - apply combine_boxes_descending.
Qed.

(** ** Weighing *)

Lemma weigh_boxes_Returns (bs : list Box) :
  bs ≠ [] → ∃ d, weigh_boxes bs = Returns (mkWeighedBoxes d bs).
Proof. destruct bs as [|b bs]; [done|]. intros _. unfold weigh_boxes. simpl. eauto. Qed.

(** ** Seeding *)

Lemma empty_boxes_pos (number_of_boxes : Z) :
  1 ≤ number_of_boxes →
  empty_boxes number_of_boxes
  = Box_init [] :: replicate (Z.to_nat number_of_boxes - 1) (Box_init []).
Proof.
  intros Hn. unfold empty_boxes.
  replace (Z.to_nat number_of_boxes) with (S (Z.to_nat number_of_boxes - 1)) at 1 by lia.
  done.
Qed.

Lemma seed_boxes_Returns (number_of_boxes : Z) (article : Article) :
  1 ≤ number_of_boxes →
  ∃ d, seed_boxes number_of_boxes article
       = Returns (mkWeighedBoxes d (seeded_boxes number_of_boxes article)).
Proof.
  intros Hn. unfold seed_boxes. rewrite empty_boxes_pos by done.
  by apply weigh_boxes_Returns.
Qed.

Lemma Sorted_replicate_empty (n : nat) :
  boxes_descending (replicate n (Box_init [])).
Proof.
  induction n as [|n IH]; [constructor|]. rewrite replicate_S. constructor; [done|].
  destruct n; simpl; constructor. unfold key_ge. done.
Qed.

Lemma seeded_boxes_entry_inv (number_of_boxes : Z) (article : Article) (d : Z) :
  1 ≤ number_of_boxes → 0 < get_weight_in_grams article →
  entry_inv (Z.to_nat number_of_boxes)
    (mkWeighedBoxes d (seeded_boxes number_of_boxes article)).
Proof.
  intros Hn Hw. unfold entry_inv, seeded_boxes. simpl. split_and!.
  - rewrite length_replicate. lia.
  - constructor; [by apply add_article_consistent|].
    apply Forall_replicate, Box_init_consistent.
  - constructor; [apply Sorted_replicate_empty|].
    destruct (Z.to_nat number_of_boxes - 1)%nat; simpl; constructor.
    unfold key_ge, get_total_weight_in_grams. simpl. rewrite py_sum_nil. lia.
Qed.

Lemma seeded_boxes_items (number_of_boxes : Z) (article : Article) :
  packed_items (seeded_boxes number_of_boxes article) = [article].
Proof.
  unfold seeded_boxes. by rewrite packed_items_cons, packed_items_replicate_empty.
Qed.

Lemma omap_seed_Returns (number_of_boxes : Z) (l : list Article) :
  1 ≤ number_of_boxes → Forall (λ a, 0 < get_weight_in_grams a) l →
  ∃ seeded, omap (seed_boxes number_of_boxes) l = Returns seeded
            ∧ length seeded = length l
            ∧ Forall (entry_inv (Z.to_nat number_of_boxes)) seeded
            ∧ queue_items seeded = l.
Proof.
  intros Hn. induction 1 as [|a l Ha _ (seeded & Hrun & Hlen & Hinv & Hitems)]; simpl.
  - exists []. by repeat split.
  - destruct (seed_boxes_Returns number_of_boxes a Hn) as (d & ->). simpl.
    rewrite Hrun. simpl. eexists. split; [done|]. split_and!.
    + simpl. by rewrite Hlen.
    + constructor; [by apply seeded_boxes_entry_inv|done].
    + rewrite queue_items_cons. cbn [boxes]. by rewrite seeded_boxes_items, Hitems.
Qed.

Lemma ldm_seed_Returns (articles : list Article) (number_of_boxes : Z) :
  1 ≤ number_of_boxes → Forall (λ a, 0 < get_weight_in_grams a) articles →
  ∃ seeded, ldm_seed articles number_of_boxes = Returns seeded
            ∧ length seeded = length articles
            ∧ Forall (entry_inv (Z.to_nat number_of_boxes)) seeded
            ∧ queue_items seeded ≡ₚ articles.
Proof.
  intros Hn Hpos. unfold ldm_seed.
  destruct (omap_seed_Returns number_of_boxes
              (sorted_reverse get_weight_in_grams articles) Hn)
    as (seeded & Hrun & Hlen & Hinv & Hitems).
  { by rewrite sorted_reverse_Permutation. }
  exists seeded. split_and!; [done| |done|].
  - by rewrite Hlen, length_sorted_reverse.
  - by rewrite Hitems, sorted_reverse_Permutation.
Qed.

Lemma ldm_init_Returns (articles : list Article) (number_of_boxes : Z) :
  1 ≤ number_of_boxes → Forall (λ a, 0 < get_weight_in_grams a) articles →
  ∃ heap, ldm_init articles number_of_boxes = Returns heap
          ∧ length heap = length articles
          ∧ Forall (entry_inv (Z.to_nat number_of_boxes)) heap
          ∧ queue_items heap ≡ₚ articles.
Proof.
  intros Hn Hpos. unfold ldm_init.
  destruct (ldm_seed_Returns articles number_of_boxes Hn Hpos)
    as (seeded & -> & Hlen & Hinv & Hitems). simpl.
  destruct (heapify_Returns WeighedBoxes_lt seeded) as (heap & -> & Hperm).
  exists heap. split_and!; [done|..].
  - by rewrite (Permutation_length Hperm).
  - by rewrite Hperm.
  - by rewrite Hperm.
Qed.

(** ** The main loop *)

Lemma ldm_step_Returns (n : nat) (heap : list WeighedBoxes) :
  (2 ≤ length heap)%nat → (0 < n)%nat → Forall (entry_inv n) heap →
  ∃ a b rest d heap',
    heap ≡ₚ a :: b :: rest
    ∧ ldm_step heap = Returns heap'
    ∧ heap' ≡ₚ mkWeighedBoxes d (combine_boxes (boxes a) (boxes b)) :: rest.
Proof.
  intros Hlen Hn Hinv. unfold ldm_step.
  destruct (heappop_Returns WeighedBoxes_lt heap) as (a & h1 & -> & Hp1).
  { intros ->. simpl in Hlen. lia. }
  cbn [obind].
  destruct (heappop_Returns WeighedBoxes_lt h1) as (b & h2 & -> & Hp2).
  { intros ->. apply Permutation_length in Hp1. simpl in Hp1. lia. }
  cbn [obind].
  assert (heap ≡ₚ a :: b :: h2) as Hheap by (by rewrite Hp2).
  rewrite Hheap in Hinv.
  apply Forall_cons in Hinv as [Ha Hinv]. apply Forall_cons in Hinv as [Hb Hinv].
  destruct (weigh_boxes_Returns (combine_boxes (boxes a) (boxes b))) as (d & ->).
  { intros Hnil. apply (f_equal length) in Hnil.
    destruct Ha as (Ha & _), Hb as (Hb & _).
    rewrite combine_boxes_length in Hnil by congruence. simpl in Hnil. lia. }
  cbn [obind].
  destruct (heappush_Returns WeighedBoxes_lt h2
              (mkWeighedBoxes d (combine_boxes (boxes a) (boxes b))))
    as (heap' & -> & Hp3).
  by exists a, b, h2, d, heap'.
Qed.

Lemma ldm_step_inv (n : nat) (heap heap' : list WeighedBoxes) :
  (2 ≤ length heap)%nat → (0 < n)%nat → Forall (entry_inv n) heap →
  ldm_step heap = Returns heap' →
  Forall (entry_inv n) heap'
  ∧ queue_items heap' ≡ₚ queue_items heap
  ∧ S (length heap') = length heap.
Proof.
  intros Hlen Hn Hinv Hstep.
  destruct (ldm_step_Returns n heap Hlen Hn Hinv)
    as (a & b & rest & d & heap1 & Hheap & Hrun & Hheap').
  assert (heap1 = heap') as -> by congruence.
  rewrite Hheap in Hinv.
  apply Forall_cons in Hinv as [Ha Hinv]. apply Forall_cons in Hinv as [Hb Hinv].
  split_and!.
  - rewrite Hheap'. constructor; [by apply combine_boxes_entry_inv|done].
  - rewrite Hheap', Hheap, !queue_items_cons. cbn [boxes].
    destruct Ha as (Ha & _), Hb as (Hb & _).
    rewrite combine_boxes_items by congruence. by rewrite (assoc_L (++)).
  - rewrite (Permutation_length Hheap'), (Permutation_length Hheap). done.
Qed.

Lemma ldm_reaches_inv (n : nat) (h h' : list WeighedBoxes) :
  ldm_reaches h h' → (0 < n)%nat → Forall (entry_inv n) h →
  Forall (entry_inv n) h'
  ∧ queue_items h' ≡ₚ queue_items h
  ∧ (length h' ≤ length h)%nat
  ∧ (h ≠ [] → h' ≠ []).
Proof.
  intros Hreach Hn. induction Hreach as [h|h h1 h2 Hlen Hstep _ IH]; intros Hinv.
  - done.
  - destruct (ldm_step_inv n h h1 ltac:(lia) Hn Hinv Hstep) as (Hinv1 & Hitems1 & Hlen1).
    destruct (IH Hinv1) as (Hinv2 & Hitems2 & Hlen2 & Hne2).
    split_and!; [done|by rewrite Hitems2|lia|].
    intros _. apply Hne2. intros ->. simpl in Hlen1. lia.
Qed.

Lemma ldm_reaches_trans (h1 h2 h3 : list WeighedBoxes) :
  ldm_reaches h1 h2 → ldm_reaches h2 h3 → ldm_reaches h1 h3.
Proof.
  induction 1 as [h|h ha hb Hlen Hstep _ IH]; [done|].
  intros H3. eapply ldm_reaches_step; eauto.
Qed.

Lemma ldm_loop_Returns (n fuel : nat) (heap : list WeighedBoxes) :
  (length heap ≤ S fuel)%nat → (0 < n)%nat → Forall (entry_inv n) heap →
  ∃ heap', ldm_loop fuel heap = Returns heap'
           ∧ ldm_reaches heap heap'
           ∧ (length heap' ≤ 1)%nat.
Proof.
  revert heap. induction fuel as [|fuel IH]; intros heap Hfuel Hn Hinv.
  - simpl. rewrite decide_False by lia. exists heap. split_and!; [done|constructor|lia].
  - cbn [ldm_loop]. case_decide as Hlen.
    2:{ exists heap. split_and!; [done|constructor|lia]. }
    destruct (ldm_step_Returns n heap ltac:(lia) Hn Hinv)
      as (a & b & rest & d & heap1 & Hheap & Hrun & Hheap1).
    destruct (ldm_step_inv n heap heap1 ltac:(lia) Hn Hinv Hrun)
      as (Hinv1 & _ & Hlen1).
    rewrite Hrun. cbn [obind].
    destruct (IH heap1 ltac:(lia) Hn Hinv1) as (heap' & -> & Hreach & Hlen').
    exists heap'. split_and!; [done| |done].
    by eapply ldm_reaches_step.
Qed.

(** What [__ldm] returns on the inputs [pack] hands to it. *)
Lemma ldm_Returns (articles : list Article) (number_of_boxes : Z) :
  articles ≠ [] → 1 ≤ number_of_boxes →
  Forall (λ a, 0 < get_weight_in_grams a) articles →
  ∃ bs, ldm articles number_of_boxes = Returns bs
        ∧ length bs = Z.to_nat number_of_boxes
        ∧ Forall box_consistent bs
        ∧ boxes_descending bs
        ∧ packed_items bs ≡ₚ articles.
Proof.
  intros Hne Hn Hpos. unfold ldm.
  destruct (ldm_init_Returns articles number_of_boxes Hn Hpos)
    as (heap & -> & Hlen & Hinv & Hitems). cbn [obind].
  destruct (ldm_loop_Returns (Z.to_nat number_of_boxes) (length heap) heap)
    as (heap' & -> & Hreach & Hlen'); [lia|lia|done|]. cbn [obind].
  destruct (ldm_reaches_inv (Z.to_nat number_of_boxes) _ _ Hreach ltac:(lia) Hinv)
    as (Hinv' & Hitems' & _ & Hne').
  assert (heap ≠ []) as Hheap.
  { intros ->. destruct articles; [done|]. simpl in Hlen. lia. }
  specialize (Hne' Hheap).
  destruct heap' as [|final [|? ?]]; [done| |simpl in Hlen'; lia].
  destruct (heappop_Returns WeighedBoxes_lt [final]) as (item & rest & Hpop & Hperm);
    [done|].
  rewrite Hpop. cbn [obind].
  apply Permutation_singleton_r in Hperm. injection Hperm as -> ->.
  apply Forall_singleton in Hinv' as (Hl & Hc & Hd).
  exists (boxes final). split_and!; [done..|].
  rewrite <-Hitems, <-Hitems'. unfold queue_items. simpl. by rewrite (right_id_L [] (++)).
Qed.

(** What [pack] returns on valid input. *)
Lemma pack_Returns (articles : list Article) (number_of_boxes : Z) :
  1 ≤ number_of_boxes →
  Forall (λ a, 0 < get_weight_in_grams a) articles →
  ∃ bs, pack articles number_of_boxes = Returns bs
        ∧ length bs = Z.to_nat number_of_boxes
        ∧ Forall box_consistent bs
        ∧ boxes_descending bs
        ∧ packed_items bs ≡ₚ articles.
Proof.
  intros Hn Hpos. unfold pack. destruct articles as [|a articles].
  - exists (empty_boxes number_of_boxes). unfold empty_boxes. split_and!; [done|..].
    + by rewrite length_replicate.
    + apply Forall_replicate, Box_init_consistent.
    + apply Sorted_replicate_empty.
    + by rewrite packed_items_replicate_empty.
  - rewrite decide_False by lia. case_decide as H1; [|by apply ldm_Returns].
    exists [Box_init (a :: articles)]. subst number_of_boxes. split_and!.
    + done.
    + done.
    + repeat constructor.
    + repeat constructor.
    + unfold packed_items. simpl. by rewrite (right_id_L [] (++)).
Qed.

(** ** Lists of lists without duplicates *)

Lemma NoDup_join_index {A : Type} (ls : list (list A)) (i j : nat)
    (l1 l2 : list A) (a : A) :
  NoDup (mjoin ls) → ls !! i = Some l1 → ls !! j = Some l2 →
  a ∈ l1 → a ∈ l2 → i = j.
Proof.
  revert i j. induction ls as [|l ls IH]; intros i j Hnd Hi Hj Ha1 Ha2; [done|].
  change (mjoin (l :: ls)) with (l ++ mjoin ls) in Hnd.
  apply NoDup_app in Hnd as (_ & Hdisj & Hnd).
  assert (∀ k l', ls !! k = Some l' → a ∈ l' → a ∈ mjoin ls) as Hin.
  { intros k l' Hk Hl'. apply list_elem_of_join. exists l'. split; [done|].
    by eapply list_elem_of_lookup_2. }
  destruct i as [|i], j as [|j]; simpl in Hi, Hj.
  - done.
  - injection Hi as ->. exfalso. eapply Hdisj; eauto.
  - injection Hj as ->. exfalso. eapply Hdisj; eauto.
  - f_equal. by apply IH.
Qed.

(** * The claims *)

(** C1.  For every list of articles of positive weight and every number of
    boxes at least 1, [pack] returns, and the articles of the returned
    boxes, taken together, are the input articles: each occurrence of an
    article in the input is in the packing once, none is lost and none is
    added.  When the input articles are pairwise distinct, each of them is
    in exactly one box of the result. *)
Theorem pack_partition (articles : list Article) (number_of_boxes : Z) :
  Forall (λ a, 0 < get_weight_in_grams a) articles →
  1 ≤ number_of_boxes →
  ∃ bs, pack articles number_of_boxes = Returns bs
        ∧ packed_items bs ≡ₚ articles
        ∧ (NoDup articles →
           ∀ a, a ∈ articles →
             ∃ i b, bs !! i = Some b ∧ a ∈ get_box_items b
                    ∧ ∀ j b', bs !! j = Some b' → a ∈ get_box_items b' → j = i).
Proof.
  intros Hpos Hn.
  destruct (pack_Returns articles number_of_boxes Hn Hpos)
    as (bs & Hrun & _ & _ & _ & Hitems).
  exists bs. split_and!; [done..|].
  intros Hnd a Ha. rewrite <-Hitems in Hnd, Ha. unfold packed_items in Hnd, Ha.
  apply list_elem_of_join in Ha as (l & Hl & Hin).
  apply list_elem_of_fmap in Hin as (b & -> & Hb).
  apply list_elem_of_lookup in Hb as (i & Hi).
  exists i, b. split_and!; [done..|].
  intros j b' Hj Hb'.
  apply (NoDup_join_index (get_box_items <$> bs) j i
           (get_box_items b') (get_box_items b) a Hnd).
  - by rewrite list_lookup_fmap, Hj.
  - by rewrite list_lookup_fmap, Hi.
  - done.
  - done.
Qed.

Lemma pack_partition_witness :
  Forall (λ a, 0 < get_weight_in_grams a) (articles_of [400; 500; 600; 700; 800])
  ∧ 1 ≤ 2
  ∧ ∃ bs, pack (articles_of [400; 500; 600; 700; 800]) 2 = Returns bs
          ∧ packed_items bs ≡ₚ articles_of [400; 500; 600; 700; 800]
          ∧ (NoDup (articles_of [400; 500; 600; 700; 800]) →
             ∀ a, a ∈ articles_of [400; 500; 600; 700; 800] →
               ∃ i b, bs !! i = Some b ∧ a ∈ get_box_items b
                      ∧ ∀ j b', bs !! j = Some b' → a ∈ get_box_items b' → j = i).
Proof.
  assert (Forall (λ a, 0 < get_weight_in_grams a)
            (articles_of [400; 500; 600; 700; 800])) as Hpos
    by (repeat constructor).
  assert (1 ≤ 2) as Hn by lia.
  exact (conj Hpos (conj Hn (pack_partition _ 2 Hpos Hn))).
Defined.

(** C2.  For every list of articles of positive weight and every number of
    boxes at least 1, the total weights of the boxes [pack] returns add up
    to the sum of the weights of the input articles. *)
Theorem pack_conserves_weight (articles : list Article) (number_of_boxes : Z) :
  Forall (λ a, 0 < get_weight_in_grams a) articles →
  1 ≤ number_of_boxes →
  ∃ bs, pack articles number_of_boxes = Returns bs
        ∧ packed_weight bs = py_sum (get_weight_in_grams <$> articles).
Proof.
  intros Hpos Hn.
  destruct (pack_Returns articles number_of_boxes Hn Hpos)
    as (bs & Hrun & _ & Hcons & _ & Hitems).
  exists bs. split; [done|].
  by rewrite packed_weight_items, Hitems.
Qed.

Lemma pack_conserves_weight_witness :
  Forall (λ a, 0 < get_weight_in_grams a) (articles_of [120; 340; 340; 1000])
  ∧ 1 ≤ 3
  ∧ ∃ bs, pack (articles_of [120; 340; 340; 1000]) 3 = Returns bs
          ∧ packed_weight bs
            = py_sum (get_weight_in_grams <$> articles_of [120; 340; 340; 1000]).
Proof.
  assert (Forall (λ a, 0 < get_weight_in_grams a)
            (articles_of [120; 340; 340; 1000])) as Hpos
    by (repeat constructor).
  assert (1 ≤ 3) as Hn by lia.
  exact (conj Hpos (conj Hn (pack_conserves_weight _ 3 Hpos Hn))).
Defined.

(** C3.  For every list of articles of positive weight and every number of
    boxes at least 1, [pack] returns exactly that number of boxes. *)
Theorem pack_length (articles : list Article) (number_of_boxes : Z) :
  Forall (λ a, 0 < get_weight_in_grams a) articles →
  1 ≤ number_of_boxes →
  ∃ bs, pack articles number_of_boxes = Returns bs
        ∧ Z.of_nat (length bs) = number_of_boxes.
Proof.
  intros Hpos Hn.
  destruct (pack_Returns articles number_of_boxes Hn Hpos)
    as (bs & Hrun & Hlen & _).
  exists bs. split; [done|]. lia.
Qed.

Lemma pack_length_witness :
  Forall (λ a, 0 < get_weight_in_grams a) (articles_of [7; 7; 2])
  ∧ 1 ≤ 4
  ∧ ∃ bs, pack (articles_of [7; 7; 2]) 4 = Returns bs
          ∧ Z.of_nat (length bs) = 4.
Proof.
  assert (Forall (λ a, 0 < get_weight_in_grams a) (articles_of [7; 7; 2])) as Hpos
    by (repeat constructor).
  assert (1 ≤ 4) as Hn by lia.
  exact (conj Hpos (conj Hn (pack_length _ 4 Hpos Hn))).
Defined.

(** C4, as the code has it.  On weights 900, 800, 700, 600, 500 and two
    boxes [pack] returns boxes of total weight 1900 and 1600, a spread of
    300; [greedy] returns boxes of total weight 2000 and 1500, a spread of
    500; the spread of [pack] is at most the spread of [greedy]. *)
Theorem scenario_spread :
  ∃ bs s gs t,
    pack (articles_of [900; 800; 700; 600; 500]) 2 = Returns bs
    ∧ spread bs = Returns s
    ∧ greedy (articles_of [900; 800; 700; 600; 500]) 2 = Returns gs
    ∧ spread gs = Returns t
    ∧ get_total_weight_in_grams <$> bs = [1900; 1600]
    ∧ get_total_weight_in_grams <$> gs = [2000; 1500]
    ∧ s = 300
    ∧ t = 500
    ∧ s ≤ t.
Proof.
  eexists _, _, _, _.
  split; [vm_compute; reflexivity|].
  split; [vm_compute; reflexivity|].
  split; [vm_compute; reflexivity|].
  split; [vm_compute; reflexivity|].
  split_and!; [reflexivity..|lia].
Qed.

(** C4, counterexample: in that scenario the spread of the packing [pack]
    returns is 300, neither 0 nor 100. *)
Lemma scenario_claim_fails : ¬ scenario_claim.
Proof.
  intros (bs & s & gs & t & Hpack & Hs & _ & _ & Hopt & _).
  vm_compute in Hpack. injection Hpack as <-.
  vm_compute in Hs. injection Hs as <-.
  destruct Hopt as [?|?]; discriminate.
Qed.

(** C5, the part the code has: on a non-empty list of articles, a number
    of boxes below 1 makes [pack] raise [ValueError]. *)
Lemma pack_invalid_count (a : Article) (articles : list Article) (number_of_boxes : Z) :
  number_of_boxes < 1 →
  pack (a :: articles) number_of_boxes
  = Raises (ValueError ("Number of boxes must be at least 1, not "
                        +:+ pretty number_of_boxes +:+ ".")).
Proof. intros Hn. unfold pack. by rewrite decide_True. Qed.

(** C5, where the code departs from it.  On the empty list of articles
    [pack] returns before it looks at the number of boxes: with 0 boxes
    (and with any number below 1) it returns the empty list and raises
    nothing. *)
Theorem pack_no_articles_skips_count_check :
  pack [] 0 = Returns []
  ∧ ∀ number_of_boxes, number_of_boxes < 1 → pack [] number_of_boxes = Returns [].
Proof.
  split; [reflexivity|]. intros n Hn. unfold pack, empty_boxes.
  replace (Z.to_nat n) with 0%nat by lia. done.
Qed.

Lemma pack_no_articles_skips_count_check_witness :
  pack [] 0 = Returns []
  ∧ (-2 < 1 → pack [] (-2) = Returns []).
Proof.
  destruct pack_no_articles_skips_count_check as [H0 Hn].
  exact (conj H0 (Hn (-2))).
Defined.

(** C6.  For a non-empty list of articles of positive weight and at least
    two boxes: every list of boxes the seeding loop appends to the queue
    is in descending order of total weight; so is every list of boxes of
    the queue at the start of every iteration of the [while] loop and when
    the loop ends; each iteration that starts returns, and the loop ends;
    and what [combine_boxes] returns, which is what an iteration puts back
    into the queue, is in descending order whatever it is given. *)
Theorem ldm_queue_descending (articles : list Article) (number_of_boxes : Z) :
  articles ≠ [] →
  Forall (λ a, 0 < get_weight_in_grams a) articles →
  2 ≤ number_of_boxes →
  ∃ seeded heap0 final,
    ldm_seed articles number_of_boxes = Returns seeded
    ∧ queue_descending seeded
    ∧ ldm_init articles number_of_boxes = Returns heap0
    ∧ (∀ heap, ldm_reaches heap0 heap →
         queue_descending heap
         ∧ ((1 < length heap)%nat →
            ∃ largest next_largest rest d heap',
              heap ≡ₚ largest :: next_largest :: rest
              ∧ ldm_step heap = Returns heap'
              ∧ heap' ≡ₚ mkWeighedBoxes d
                           (combine_boxes (boxes largest) (boxes next_largest)) :: rest
              ∧ queue_descending heap'))
    ∧ ldm_loop (length heap0) heap0 = Returns final
    ∧ ldm_reaches heap0 final
    ∧ (∀ boxes1 boxes2, boxes_descending (combine_boxes boxes1 boxes2)).
Proof.
  intros Hne Hpos Hn.
  assert (∀ n h, Forall (entry_inv n) h → queue_descending h) as Hdesc.
  { intros n h Hh. eapply Forall_impl; [done|]. by intros wb (_ & _ & ?). }
  destruct (ldm_seed_Returns articles number_of_boxes ltac:(lia) Hpos)
    as (seeded & Hseed & _ & Hinvs & _).
  destruct (ldm_init_Returns articles number_of_boxes ltac:(lia) Hpos)
    as (heap0 & Hinit & _ & Hinv0 & _).
  destruct (ldm_loop_Returns (Z.to_nat number_of_boxes) (length heap0) heap0)
    as (final & Hloop & Hreach & _); [lia|lia|done|].
  exists seeded, heap0, final. split_and!; [done|by eapply Hdesc|done| |done|done|].
  - intros heap Hheap.
    destruct (ldm_reaches_inv (Z.to_nat number_of_boxes) _ _ Hheap ltac:(lia) Hinv0)
      as (Hinv & _).
    split; [by eapply Hdesc|]. intros Hlen.
    destruct (ldm_step_Returns (Z.to_nat number_of_boxes) heap) as
      (a & b & rest & d & heap' & Hperm & Hstep & Hperm'); [lia|lia|done|].
    exists a, b, rest, d, heap'. split_and!; [done..|].
    destruct (ldm_step_inv (Z.to_nat number_of_boxes) heap heap') as (Hinv' & _);
      [lia|lia|done|done|].
    by eapply Hdesc.
  - apply combine_boxes_descending.
Qed.

Lemma ldm_queue_descending_witness :
  articles_of [900; 800; 700; 600; 500] ≠ []
  ∧ Forall (λ a, 0 < get_weight_in_grams a) (articles_of [900; 800; 700; 600; 500])
  ∧ 2 ≤ 3
  ∧ ∃ seeded heap0 final,
      ldm_seed (articles_of [900; 800; 700; 600; 500]) 3 = Returns seeded
      ∧ queue_descending seeded
      ∧ ldm_init (articles_of [900; 800; 700; 600; 500]) 3 = Returns heap0
      ∧ (∀ heap, ldm_reaches heap0 heap →
           queue_descending heap
           ∧ ((1 < length heap)%nat →
              ∃ largest next_largest rest d heap',
                heap ≡ₚ largest :: next_largest :: rest
                ∧ ldm_step heap = Returns heap'
                ∧ heap' ≡ₚ mkWeighedBoxes d
                             (combine_boxes (boxes largest) (boxes next_largest)) :: rest
                ∧ queue_descending heap'))
      ∧ ldm_loop (length heap0) heap0 = Returns final
      ∧ ldm_reaches heap0 final
      ∧ (∀ boxes1 boxes2, boxes_descending (combine_boxes boxes1 boxes2)).
Proof.
  assert (articles_of [900; 800; 700; 600; 500] ≠ []) as Hne by discriminate.
  assert (Forall (λ a, 0 < get_weight_in_grams a)
            (articles_of [900; 800; 700; 600; 500])) as Hpos
    by (repeat constructor).
  assert (2 ≤ 3) as Hn by lia.
  exact (conj Hne (conj Hpos (conj Hn (ldm_queue_descending _ 3 Hne Hpos Hn)))).
Defined.

(** C7.  On the empty list of articles [pack] raises nothing, whatever the
    number of boxes: it returns that many boxes (none when the number is
    negative, as [range] yields nothing then), each without articles and
    of total weight 0. *)
Theorem pack_empty (number_of_boxes : Z) :
  ∃ bs, pack [] number_of_boxes = Returns bs
        ∧ Z.of_nat (length bs) = Z.max 0 number_of_boxes
        ∧ Forall (λ b, get_box_items b = [] ∧ get_total_weight_in_grams b = 0) bs.
Proof.
  exists (empty_boxes number_of_boxes). unfold empty_boxes. split_and!.
  - done.
  - rewrite length_replicate. lia.
  - by apply Forall_replicate.
Qed.

(** C9.  Constructing an article with a weight of 0 or less raises
    [ValueError]; with a positive weight it returns an article whose
    getter gives that weight and whose string is that weight.  An article
    is a value of the embedding: no method of the class assigns to its
    weight once [__init__] is over, and none is modelled. *)
Theorem Article_init_spec (weight : Z) :
  (weight ≤ 0 →
   Article_init weight
   = Raises (ValueError ("Weight of article must be at least 1, not "
                         +:+ pretty weight +:+ ".")))
  ∧ (0 < weight →
     ∃ a, Article_init weight = Returns a
          ∧ get_weight_in_grams a = weight
          ∧ Article_str a = pretty weight).
Proof.
  unfold Article_init. split; intros Hw.
  - by rewrite decide_False by lia.
  - rewrite decide_True by lia. by eexists.
Qed.

Lemma Article_init_spec_witness :
  (-3 ≤ 0 ∧ Article_init (-3)
            = Raises (ValueError "Weight of article must be at least 1, not -3."))
  ∧ (0 < 450 ∧ ∃ a, Article_init 450 = Returns a
                    ∧ get_weight_in_grams a = 450
                    ∧ Article_str a = "450").
Proof.
  assert (-3 ≤ 0) as Hneg by lia.
  assert (0 < 450) as Hpos by lia.
  exact (conj (conj Hneg (proj1 (Article_init_spec (-3)) Hneg))
              (conj Hpos (proj2 (Article_init_spec 450) Hpos))).
Defined.

(** C10.  For every non-empty list of articles of positive weight and
    every number of boxes at least 1, the boxes [pack] returns are in
    descending order of total weight. *)
Theorem pack_descending (articles : list Article) (number_of_boxes : Z) :
  articles ≠ [] →
  Forall (λ a, 0 < get_weight_in_grams a) articles →
  1 ≤ number_of_boxes →
  ∃ bs, pack articles number_of_boxes = Returns bs
        ∧ boxes_descending bs.
Proof.
  intros _ Hpos Hn.
  destruct (pack_Returns articles number_of_boxes Hn Hpos)
    as (bs & Hrun & _ & _ & Hdesc & _).
  by exists bs.
Qed.

Lemma pack_descending_witness :
  articles_of [100; 1000; 550; 550; 320; 75] ≠ []
  ∧ Forall (λ a, 0 < get_weight_in_grams a) (articles_of [100; 1000; 550; 550; 320; 75])
  ∧ 1 ≤ 3
  ∧ ∃ bs, pack (articles_of [100; 1000; 550; 550; 320; 75]) 3 = Returns bs
          ∧ boxes_descending bs.
Proof.
  assert (articles_of [100; 1000; 550; 550; 320; 75] ≠ []) as Hne by discriminate.
  assert (Forall (λ a, 0 < get_weight_in_grams a)
            (articles_of [100; 1000; 550; 550; 320; 75])) as Hpos
    by (repeat constructor).
  assert (1 ≤ 3) as Hn by lia.
  exact (conj Hne (conj Hpos (conj Hn (pack_descending _ 3 Hne Hpos Hn)))).
Defined.

(** ** [Box.combine] on the store *)

Lemma box_at_Some (σ : Objects.Store) (box : Objects.ref) (v : Box) :
  Objects.box_at σ box = Some v →
  ∃ bo, Objects.store_boxes σ !! box = Some bo
        ∧ Objects.store_lists σ !! Objects.box_items_ref bo = Some (box_items v)
        ∧ Objects.total_weight_field bo = total_weight_in_grams v.
Proof.
  unfold Objects.box_at. intros H.
  destruct (Objects.store_boxes σ !! box) as [bo|] eqn:Hbo; simpl in H; [|done].
  destruct (Objects.store_lists σ !! Objects.box_items_ref bo) as [l|] eqn:Hl;
    simpl in H; [|done].
  injection H as <-. by exists bo.
Qed.

Lemma lookup_fresh_None {V : Type} (m : gmap Objects.ref V) : m !! fresh (dom m) = None.
Proof. apply not_elem_of_dom, is_fresh. Qed.

(** [add_article], by contrast, changes the box it is called on, and
    through the shared list every box that holds the same list object. *)
Lemma Box_add_article_changes (σ : Objects.Store) (box : Objects.ref) (v : Box)
    (article : Article) :
  Objects.box_at σ box = Some v →
  ∃ σ', Objects.Box_add_article σ box article = Some σ'
        ∧ Objects.box_at σ' box = Some (add_article v article).
Proof.
  intros Hv. apply box_at_Some in Hv as (bo & Hbo & Hl & Ht).
  unfold Objects.Box_add_article. rewrite Hbo. simpl. rewrite Hl. simpl.
  eexists. split; [done|].
  unfold Objects.box_at. simpl. rewrite lookup_insert_eq. simpl.
  rewrite lookup_insert_eq. simpl. by rewrite Ht.
Qed.

(** The stale store is one the code reaches: from [example_store], the
    constructor on the list of box 2 gives box 3, and [add_article] on
    box 3 gives [stale_store]. *)
Lemma stale_store_reached :
  ∃ σ1, Objects.Box_new Objects.example_store 2%positive = Some (σ1, 3%positive)
        ∧ Objects.Box_add_article σ1 3%positive (mkArticle 80)
          = Some Objects.stale_store
        ∧ Objects.box_at Objects.stale_store 2%positive
          = Some (mkBox (articles_of [450; 80]) 450)
        ∧ Objects.box_at Objects.stale_store 1%positive
          = Some (mkBox (articles_of [300; 200]) 500).
Proof.
  eexists. split; [reflexivity|].
  split; [vm_compute; reflexivity|]. split; reflexivity.
Qed.

(** C8, counterexample.  In [stale_store] box 2 holds articles of 450 and
    80 grams with the total 450, and box 1 holds articles of 300 and 200
    grams with the total 500.  [Box.combine] of box 2 and box 1 returns a
    box of total 1030, the sum of the weights of its four articles, not
    450 + 500. *)
Lemma combine_claim_fails : ¬ combine_claim.
Proof.
  intros Hclaim.
  destruct (Hclaim Objects.stale_store 2%positive 1%positive
              (mkBox (articles_of [450; 80]) 450)
              (mkBox (articles_of [300; 200]) 500))
    as (σ' & c & vc & Hrun & Hvc & _ & Htotal & _); [reflexivity|reflexivity|].
  vm_compute in Hrun. injection Hrun as <- <-.
  vm_compute in Hvc. injection Hvc as <-.
  vm_compute in Htotal. discriminate.
Qed.

(** C8, as the code has it.  For boxes [a] and [b] of the store (which
    may be the same box), [Box.combine(a, b)] returns a box that was not
    in the store, holding a list that was not in the store; its items are
    the items of [a] followed by the items of [b]; its total weight is
    the sum of the weights of those items, which is the sum of the two
    totals whenever the totals of [a] and [b] each match their items;
    every list and every box of the store is after the call what it was
    before, [a] and [b] among them. *)
Theorem combine_new_box (σ : Objects.Store) (a b : Objects.ref) (va vb : Box) :
  Objects.box_at σ a = Some va →
  Objects.box_at σ b = Some vb →
  ∃ σ' c bo,
    Objects.Box_combine σ a b = Some (σ', c)
    ∧ Objects.store_boxes σ !! c = None
    ∧ Objects.store_boxes σ' !! c = Some bo
    ∧ Objects.store_lists σ !! Objects.box_items_ref bo = None
    ∧ Objects.box_at σ' c = Some (combine va vb)
    ∧ get_box_items (combine va vb) = get_box_items va ++ get_box_items vb
    ∧ get_total_weight_in_grams (combine va vb)
      = py_sum (get_weight_in_grams <$> (get_box_items va ++ get_box_items vb))
    ∧ (box_consistent va → box_consistent vb →
       get_total_weight_in_grams (combine va vb)
       = get_total_weight_in_grams va + get_total_weight_in_grams vb)
    ∧ Objects.store_lists σ ⊆ Objects.store_lists σ'
    ∧ Objects.store_boxes σ ⊆ Objects.store_boxes σ'
    ∧ Objects.box_at σ' a = Some va
    ∧ Objects.box_at σ' b = Some vb.
Proof.
  intros Ha Hb.
  pose proof Ha as Ha'. pose proof Hb as Hb'.
  apply box_at_Some in Ha' as (ba & Hba & Hla & Hta).
  apply box_at_Some in Hb' as (bb & Hbb & Hlb & Htb).
  pose proof (lookup_fresh_None (Objects.store_lists σ)) as Hr.
  pose proof (lookup_fresh_None (Objects.store_boxes σ)) as Hc.
  set (r := fresh (dom (Objects.store_lists σ))) in *.
  set (c := fresh (dom (Objects.store_boxes σ))) in *.
  set (bo := Objects.mkBoxObject r
               (py_sum (get_weight_in_grams <$> (box_items va ++ box_items vb)))).
  set (σ' := Objects.mkStore (<[r := box_items va ++ box_items vb]> (Objects.store_lists σ))
               (<[c := bo]> (Objects.store_boxes σ))).
  assert (Objects.Box_combine σ a b = Some (σ', c)) as Hrun.
  { unfold Objects.Box_combine. rewrite Hba. simpl. rewrite Hla. simpl.
    rewrite Hbb. simpl. rewrite Hlb. simpl.
    unfold Objects.Box_new. simpl. fold r. rewrite lookup_insert_eq. done. }
  assert (Objects.store_lists σ ⊆ Objects.store_lists σ') as Hsubl
    by (by apply insert_subseteq).
  assert (Objects.store_boxes σ ⊆ Objects.store_boxes σ') as Hsubb
    by (by apply insert_subseteq).
  assert (∀ x v, Objects.box_at σ x = Some v → Objects.box_at σ' x = Some v) as Hframe.
  { intros x v Hx. apply box_at_Some in Hx as (bx & Hbx & Hlx & Htx).
    pose proof (lookup_weaken _ _ _ _ Hbx Hsubb) as Hbx'.
    pose proof (lookup_weaken _ _ _ _ Hlx Hsubl) as Hlx'.
    unfold Objects.box_at. rewrite Hbx'. simpl. simpl in Hlx'. rewrite Hlx'. simpl.
    rewrite Htx. by destruct v. }
  exists σ', c, bo. split_and!; try done.
  - apply lookup_insert_eq.
  - unfold Objects.box_at. simpl. rewrite lookup_insert_eq. simpl.
    rewrite lookup_insert_eq. done.
  - apply combine_total.
  - by apply Hframe.
  - by apply Hframe.
Qed.

Lemma combine_new_box_witness :
  Objects.box_at Objects.example_store 1%positive
  = Some (mkBox (articles_of [300; 200]) 500)
  ∧ Objects.box_at Objects.example_store 2%positive
    = Some (mkBox (articles_of [450]) 450)
  ∧ ∃ σ' c bo,
      Objects.Box_combine Objects.example_store 1%positive 2%positive = Some (σ', c)
      ∧ Objects.store_boxes Objects.example_store !! c = None
      ∧ Objects.store_boxes σ' !! c = Some bo
      ∧ Objects.store_lists Objects.example_store !! Objects.box_items_ref bo = None
      ∧ Objects.box_at σ' c
        = Some (combine (mkBox (articles_of [300; 200]) 500)
                        (mkBox (articles_of [450]) 450))
      ∧ get_box_items (combine (mkBox (articles_of [300; 200]) 500)
                               (mkBox (articles_of [450]) 450))
        = get_box_items (mkBox (articles_of [300; 200]) 500)
          ++ get_box_items (mkBox (articles_of [450]) 450)
      ∧ get_total_weight_in_grams
          (combine (mkBox (articles_of [300; 200]) 500)
                   (mkBox (articles_of [450]) 450))
        = py_sum (get_weight_in_grams
                    <$> (get_box_items (mkBox (articles_of [300; 200]) 500)
                         ++ get_box_items (mkBox (articles_of [450]) 450)))
      ∧ (box_consistent (mkBox (articles_of [300; 200]) 500) →
         box_consistent (mkBox (articles_of [450]) 450) →
         get_total_weight_in_grams
           (combine (mkBox (articles_of [300; 200]) 500)
                    (mkBox (articles_of [450]) 450))
         = get_total_weight_in_grams (mkBox (articles_of [300; 200]) 500)
           + get_total_weight_in_grams (mkBox (articles_of [450]) 450))
      ∧ Objects.store_lists Objects.example_store ⊆ Objects.store_lists σ'
      ∧ Objects.store_boxes Objects.example_store ⊆ Objects.store_boxes σ'
      ∧ Objects.box_at σ' 1%positive = Some (mkBox (articles_of [300; 200]) 500)
      ∧ Objects.box_at σ' 2%positive = Some (mkBox (articles_of [450]) 450).
Proof.
  assert (Objects.box_at Objects.example_store 1%positive
          = Some (mkBox (articles_of [300; 200]) 500)) as Ha by reflexivity.
  assert (Objects.box_at Objects.example_store 2%positive
          = Some (mkBox (articles_of [450]) 450)) as Hb by reflexivity.
  exact (conj Ha (conj Hb
           (combine_new_box Objects.example_store 1%positive 2%positive _ _ Ha Hb))).
Defined.

(** * Further properties of the code *)

(** ** Boxes built step by step *)

(** X1.  Adding articles one at a time to a box built from a list gives
    the box the constructor builds from the whole list: the same items in
    the same order, and a cached total equal to the recomputed sum. *)
Theorem add_articles_Box_init (items new : list Article) :
  foldl add_article (Box_init items) new = Box_init (items ++ new).
Proof.
  revert items. induction new as [|a new IH]; intros items; simpl.
  - by rewrite (right_id_L [] (++)).
  - assert (add_article (Box_init items) a = Box_init (items ++ [a])) as ->.
    { unfold add_article, Box_init. cbn [box_items total_weight_in_grams]. f_equal.
      rewrite fmap_app, py_sum_app. cbn [fmap list_fmap].
      by rewrite py_sum_cons, py_sum_nil, Z.add_0_r. }
    rewrite IH. by rewrite <-(assoc_L (++)).
Qed.

(** X2.  Combining boxes is associative, the two combining methods of
    [Box] agree, and the empty box is neutral on either side for a box
    whose total matches its items. *)
Theorem combine_assoc_neutral (a b c : Box) :
  combine (combine a b) c = combine a (combine b c)
  ∧ combine_with_other_box a b = combine a b
  ∧ (box_consistent a →
     combine a (Box_init []) = a ∧ combine (Box_init []) a = a).
Proof.
  split_and!.
  - unfold combine, get_box_items. simpl. by rewrite (assoc_L (++)).
  - done.
  - intros Ha. destruct a as [items total]. unfold box_consistent in Ha.
    simpl in Ha. subst total. unfold combine, get_box_items, Box_init. simpl.
    by rewrite (right_id_L [] (++)).
Qed.

Lemma combine_assoc_neutral_witness :
  box_consistent (mkBox (articles_of [250; 50]) 300)
  ∧ combine (mkBox (articles_of [250; 50]) 300) (Box_init [])
    = mkBox (articles_of [250; 50]) 300
  ∧ combine (Box_init []) (mkBox (articles_of [250; 50]) 300)
    = mkBox (articles_of [250; 50]) 300.
Proof.
  assert (box_consistent (mkBox (articles_of [250; 50]) 300)) as Hc by reflexivity.
  exact (conj Hc
           (proj2 (proj2 (combine_assoc_neutral (mkBox (articles_of [250; 50]) 300)
                            (Box_init []) (Box_init []))) Hc)).
Defined.

(** ** Boxes and the lists they hold, on the store *)

(** X3.  [add_article] on a box of the store returns; afterwards the box
    holds its former items followed by the article and its total has
    grown by the weight of the article; a box that holds another list
    object is what it was before. *)
Theorem Box_add_article_effect (σ : Objects.Store) (box other : Objects.ref)
    (bo bx : Objects.BoxObject) (v vo : Box) (article : Article) :
  Objects.store_boxes σ !! box = Some bx →
  Objects.box_at σ box = Some v →
  Objects.store_boxes σ !! other = Some bo →
  Objects.box_at σ other = Some vo →
  other ≠ box →
  Objects.box_items_ref bo ≠ Objects.box_items_ref bx →
  ∃ σ', Objects.Box_add_article σ box article = Some σ'
        ∧ Objects.box_at σ' box
          = Some (mkBox (get_box_items v ++ [article])
                        (get_total_weight_in_grams v + get_weight_in_grams article))
        ∧ Objects.box_at σ' other = Some vo.
Proof.
  intros Hbx Hv Hbo Hvo Hne Hrefs.
  destruct (Box_add_article_changes σ box v article Hv) as (σ' & Hrun & Hbox).
  exists σ'. split_and!; [done..|].
  apply box_at_Some in Hvo as (bo' & Hbo' & Hlo & Hto).
  assert (bo' = bo) as -> by congruence.
  unfold Objects.Box_add_article in Hrun. rewrite Hbx in Hrun. simpl in Hrun.
  apply box_at_Some in Hv as (bx' & Hbx' & Hlx & Htx).
  assert (bx' = bx) as -> by congruence.
  rewrite Hlx in Hrun. simpl in Hrun. injection Hrun as <-.
  unfold Objects.box_at. simpl.
  rewrite lookup_insert_ne by done. rewrite Hbo. simpl.
  rewrite lookup_insert_ne by done. rewrite Hlo. simpl.
  rewrite Hto. by destruct vo.
Qed.

Lemma Box_add_article_effect_witness :
  Objects.store_boxes Objects.example_store !! 1%positive
  = Some (Objects.mkBoxObject 1%positive 500)
  ∧ Objects.box_at Objects.example_store 1%positive
    = Some (mkBox (articles_of [300; 200]) 500)
  ∧ Objects.store_boxes Objects.example_store !! 2%positive
    = Some (Objects.mkBoxObject 2%positive 450)
  ∧ Objects.box_at Objects.example_store 2%positive
    = Some (mkBox (articles_of [450]) 450)
  ∧ 2%positive ≠ 1%positive
  ∧ ∃ σ', Objects.Box_add_article Objects.example_store 1%positive (mkArticle 70)
          = Some σ'
          ∧ Objects.box_at σ' 1%positive
            = Some (mkBox (get_box_items (mkBox (articles_of [300; 200]) 500)
                           ++ [mkArticle 70])
                          (get_total_weight_in_grams (mkBox (articles_of [300; 200]) 500)
                           + get_weight_in_grams (mkArticle 70)))
          ∧ Objects.box_at σ' 2%positive = Some (mkBox (articles_of [450]) 450).
Proof.
  assert (Objects.store_boxes Objects.example_store !! 1%positive
          = Some (Objects.mkBoxObject 1%positive 500)) as H1 by reflexivity.
  assert (Objects.box_at Objects.example_store 1%positive
          = Some (mkBox (articles_of [300; 200]) 500)) as H2 by reflexivity.
  assert (Objects.store_boxes Objects.example_store !! 2%positive
          = Some (Objects.mkBoxObject 2%positive 450)) as H3 by reflexivity.
  assert (Objects.box_at Objects.example_store 2%positive
          = Some (mkBox (articles_of [450]) 450)) as H4 by reflexivity.
  assert (2%positive ≠ 1%positive) as H5 by discriminate.
  assert (Objects.box_items_ref (Objects.mkBoxObject 2%positive 450)
          ≠ Objects.box_items_ref (Objects.mkBoxObject 1%positive 500)) as H6
    by discriminate.
  exact (conj H1 (conj H2 (conj H3 (conj H4 (conj H5
           (Box_add_article_effect _ _ _ _ _ _ _ (mkArticle 70) H1 H2 H3 H4 H5 H6)))))).
Defined.

(** X4.  The constructor of [Box] keeps the list object it is given.  When
    two boxes are built from one list and an article is added to the
    first, the list itself has the article appended, the first box has a
    total that matches its items, and the second box shows the new article
    among its items while its total is still the sum of the former items:
    for an article of non-zero weight its total no longer matches. *)
Theorem Box_new_shares_list (σ : Objects.Store) (r : Objects.ref)
    (l : list Article) (article : Article) :
  Objects.store_lists σ !! r = Some l →
  ∃ σ1 b1 σ2 b2 σ3,
    Objects.Box_new σ r = Some (σ1, b1)
    ∧ Objects.Box_new σ1 r = Some (σ2, b2)
    ∧ b1 ≠ b2
    ∧ Objects.Box_add_article σ2 b1 article = Some σ3
    ∧ Objects.store_lists σ3 !! r = Some (l ++ [article])
    ∧ Objects.box_at σ3 b1 = Some (Box_init (l ++ [article]))
    ∧ Objects.box_at σ3 b2
      = Some (mkBox (l ++ [article]) (py_sum (get_weight_in_grams <$> l)))
    ∧ (get_weight_in_grams article ≠ 0 →
       ¬ box_consistent (mkBox (l ++ [article]) (py_sum (get_weight_in_grams <$> l)))).
Proof.
  intros Hl.
  set (w := py_sum (get_weight_in_grams <$> l)).
  set (b1 := fresh (dom (Objects.store_boxes σ))).
  set (boxes1 := <[b1 := Objects.mkBoxObject r w]> (Objects.store_boxes σ)).
  set (σ1 := Objects.mkStore (Objects.store_lists σ) boxes1).
  set (b2 := fresh (dom boxes1)).
  set (boxes2 := <[b2 := Objects.mkBoxObject r w]> boxes1).
  set (σ2 := Objects.mkStore (Objects.store_lists σ) boxes2).
  assert (boxes1 !! b1 = Some (Objects.mkBoxObject r w)) as Hb1
    by apply lookup_insert_eq.
  assert (b1 ≠ b2) as Hne.
  { intros Heq. pose proof (lookup_fresh_None boxes1) as Hfresh.
    fold b2 in Hfresh. rewrite <-Heq in Hfresh. congruence. }
  assert (Objects.Box_new σ r = Some (σ1, b1)) as Hnew1.
  { unfold Objects.Box_new. rewrite Hl. done. }
  assert (Objects.Box_new σ1 r = Some (σ2, b2)) as Hnew2.
  { unfold Objects.Box_new. simpl. rewrite Hl. done. }
  assert (boxes2 !! b1 = Some (Objects.mkBoxObject r w)) as Hb1'.
  { unfold boxes2. by rewrite lookup_insert_ne. }
  assert (boxes2 !! b2 = Some (Objects.mkBoxObject r w)) as Hb2
    by apply lookup_insert_eq.
  set (σ3 := Objects.mkStore
               (<[r := l ++ [article]]> (Objects.store_lists σ))
               (<[b1 := Objects.mkBoxObject r (w + get_weight_in_grams article)]> boxes2)).
  assert (Objects.Box_add_article σ2 b1 article = Some σ3) as Hadd.
  { unfold Objects.Box_add_article. simpl. rewrite Hb1'. simpl. rewrite Hl. done. }
  exists σ1, b1, σ2, b2, σ3. split_and!; [done..| | | | ].
  - apply lookup_insert_eq.
  - unfold Objects.box_at. simpl. rewrite lookup_insert_eq. simpl.
    rewrite lookup_insert_eq. simpl. unfold Box_init. do 2 f_equal.
    rewrite fmap_app, py_sum_app. cbn [fmap list_fmap].
    by rewrite py_sum_cons, py_sum_nil, Z.add_0_r.
  - unfold Objects.box_at. simpl. rewrite lookup_insert_ne by done.
    rewrite Hb2. simpl. rewrite lookup_insert_eq. done.
  - intros Hw Hcons. unfold box_consistent in Hcons. simpl in Hcons.
    rewrite fmap_app, py_sum_app in Hcons. cbn [fmap list_fmap] in Hcons.
    rewrite py_sum_cons, py_sum_nil in Hcons. fold w in Hcons. lia.
Qed.

Lemma Box_new_shares_list_witness :
  Objects.store_lists Objects.example_store !! 2%positive = Some (articles_of [450])
  ∧ ∃ σ1 b1 σ2 b2 σ3,
      Objects.Box_new Objects.example_store 2%positive = Some (σ1, b1)
      ∧ Objects.Box_new σ1 2%positive = Some (σ2, b2)
      ∧ b1 ≠ b2
      ∧ Objects.Box_add_article σ2 b1 (mkArticle 80) = Some σ3
      ∧ Objects.store_lists σ3 !! 2%positive = Some (articles_of [450] ++ [mkArticle 80])
      ∧ Objects.box_at σ3 b1 = Some (Box_init (articles_of [450] ++ [mkArticle 80]))
      ∧ Objects.box_at σ3 b2
        = Some (mkBox (articles_of [450] ++ [mkArticle 80])
                      (py_sum (get_weight_in_grams <$> articles_of [450])))
      ∧ (get_weight_in_grams (mkArticle 80) ≠ 0 →
         ¬ box_consistent (mkBox (articles_of [450] ++ [mkArticle 80])
                                 (py_sum (get_weight_in_grams <$> articles_of [450])))).
Proof.
  assert (Objects.store_lists Objects.example_store !! 2%positive
          = Some (articles_of [450])) as Hl by reflexivity.
  exact (conj Hl (Box_new_shares_list _ _ _ (mkArticle 80) Hl)).
Defined.

(** ** Minimum, maximum and spread *)

Lemma foldl_min_spec (l : list Z) (a : Z) :
  (foldl Z.min a l = a ∨ foldl Z.min a l ∈ l)
  ∧ foldl Z.min a l ≤ a
  ∧ ∀ x, x ∈ l → foldl Z.min a l ≤ x.
Proof.
  revert a. induction l as [|y l IH]; intros a; simpl.
  - split_and!; [by left|lia|]. intros x Hx. by apply elem_of_nil in Hx.
  - destruct (IH (Z.min a y)) as (Hin & Hle & Hall). split_and!.
    + destruct Hin as [Heq|Hin]; [|right; by right].
      rewrite Heq. destruct (Z.min_spec a y) as [[_ ->]|[_ ->]]; [by left|right; by left].
    + lia.
    + intros x Hx. apply elem_of_cons in Hx as [->|Hx]; [lia|by apply Hall].
Qed.

Lemma foldl_max_spec (l : list Z) (a : Z) :
  (foldl Z.max a l = a ∨ foldl Z.max a l ∈ l)
  ∧ a ≤ foldl Z.max a l
  ∧ ∀ x, x ∈ l → x ≤ foldl Z.max a l.
Proof.
  revert a. induction l as [|y l IH]; intros a; simpl.
  - split_and!; [by left|lia|]. intros x Hx. by apply elem_of_nil in Hx.
  - destruct (IH (Z.max a y)) as (Hin & Hle & Hall). split_and!.
    + destruct Hin as [Heq|Hin]; [|right; by right].
      rewrite Heq. destruct (Z.max_spec a y) as [[_ ->]|[_ ->]]; [right; by left|by left].
    + lia.
    + intros x Hx. apply elem_of_cons in Hx as [->|Hx]; [lia|by apply Hall].
Qed.

Lemma py_min_Returns (l : list Z) :
  l ≠ [] → ∃ m, py_min l = Returns m ∧ m ∈ l ∧ ∀ x, x ∈ l → m ≤ x.
Proof.
  destruct l as [|a l]; [done|]. intros _. exists (foldl Z.min a l).
  destruct (foldl_min_spec l a) as (Hin & Hle & Hall). split_and!; [done| |].
  - destruct Hin as [->|Hin]; [by left|by right].
  - intros x Hx. apply elem_of_cons in Hx as [->|Hx]; [done|by apply Hall].
Qed.

Lemma py_max_Returns (l : list Z) :
  l ≠ [] → ∃ m, py_max l = Returns m ∧ m ∈ l ∧ ∀ x, x ∈ l → x ≤ m.
Proof.
  destruct l as [|a l]; [done|]. intros _. exists (foldl Z.max a l).
  destruct (foldl_max_spec l a) as (Hin & Hle & Hall). split_and!; [done| |].
  - destruct Hin as [->|Hin]; [by left|by right].
  - intros x Hx. apply elem_of_cons in Hx as [->|Hx]; [done|by apply Hall].
Qed.

(** What [spread] and [weigh_boxes] return on a non-empty list of boxes. *)
Lemma spread_Returns (bs : list Box) :
  bs ≠ [] →
  ∃ s, spread bs = Returns s
       ∧ weigh_boxes bs = Returns (mkWeighedBoxes (- s) bs)
       ∧ 0 ≤ s
       ∧ within s bs
       ∧ ∃ b1 b2, b1 ∈ bs ∧ b2 ∈ bs
                  ∧ get_total_weight_in_grams b1 - get_total_weight_in_grams b2 = s.
Proof.
  intros Hne.
  assert (get_total_weight_in_grams <$> bs ≠ []) as Hne'.
  { destruct bs; [done|discriminate]. }
  destruct (py_min_Returns _ Hne') as (mn & Hmin & Hmn & Hminall).
  destruct (py_max_Returns _ Hne') as (mx & Hmax & Hmx & Hmaxall).
  exists (mx - mn). unfold spread, weigh_boxes. rewrite Hmin, Hmax. cbn [obind].
  apply list_elem_of_fmap in Hmn as (bmin & -> & Hbmin).
  apply list_elem_of_fmap in Hmx as (bmax & -> & Hbmax).
  split_and!.
  - done.
  - do 2 f_equal. lia.
  - specialize (Hmaxall _ (list_elem_of_fmap_2 get_total_weight_in_grams _ _ Hbmin)). lia.
  - intros b1 b2 Hb1 Hb2.
    specialize (Hmaxall _ (list_elem_of_fmap_2 get_total_weight_in_grams _ _ Hb1)).
    specialize (Hminall _ (list_elem_of_fmap_2 get_total_weight_in_grams _ _ Hb2)).
    lia.
  - by exists bmax, bmin.
Qed.

(** X5.  On a non-empty list of boxes the spread is the largest difference
    between two totals: it is not negative, no two boxes differ by more,
    and two boxes differ by exactly that much; the priority [weigh_boxes]
    gives the list is the spread negated.  On the empty list both raise
    [ValueError]. *)
Theorem spread_largest_difference (bs : list Box) :
  (bs ≠ [] →
   ∃ s w, spread bs = Returns s
          ∧ weigh_boxes bs = Returns w
          ∧ weight_difference w = - s
          ∧ boxes w = bs
          ∧ 0 ≤ s
          ∧ within s bs
          ∧ ∃ b1 b2, b1 ∈ bs ∧ b2 ∈ bs
                     ∧ get_total_weight_in_grams b1 - get_total_weight_in_grams b2 = s)
  ∧ (bs = [] →
     (∃ msg, spread bs = Raises (ValueError msg))
     ∧ (∃ msg, weigh_boxes bs = Raises (ValueError msg))).
Proof.
  split.
  - intros Hne. destruct (spread_Returns bs Hne) as (s & Hs & Hw & H0 & Hwithin & Hex).
    by exists s, (mkWeighedBoxes (- s) bs).
  - intros ->. split; eexists; reflexivity.
Qed.

Lemma spread_largest_difference_witness :
  [Box_init (articles_of [300; 200]); Box_init (articles_of [450]); Box_init []] ≠ []
  ∧ ∃ s w,
      spread [Box_init (articles_of [300; 200]); Box_init (articles_of [450]); Box_init []]
      = Returns s
      ∧ weigh_boxes
          [Box_init (articles_of [300; 200]); Box_init (articles_of [450]); Box_init []]
        = Returns w
      ∧ weight_difference w = - s
      ∧ boxes w
        = [Box_init (articles_of [300; 200]); Box_init (articles_of [450]); Box_init []]
      ∧ 0 ≤ s
      ∧ within s
          [Box_init (articles_of [300; 200]); Box_init (articles_of [450]); Box_init []]
      ∧ ∃ b1 b2,
          b1 ∈ [Box_init (articles_of [300; 200]); Box_init (articles_of [450]); Box_init []]
          ∧ b2 ∈ [Box_init (articles_of [300; 200]); Box_init (articles_of [450]); Box_init []]
          ∧ get_total_weight_in_grams b1 - get_total_weight_in_grams b2 = s.
Proof.
  assert ([Box_init (articles_of [300; 200]); Box_init (articles_of [450]); Box_init []]
          ≠ []) as Hne by discriminate.
  exact (conj Hne (proj1 (spread_largest_difference _) Hne)).
Defined.

(** ** The greedy baseline *)

Lemma argmin_from_spec {A : Type} (key : A → Z) (pre l : list A) (best : nat)
    (bestitem : A) :
  (pre ++ l) !! best = Some bestitem →
  Forall (λ y, key bestitem ≤ key y) pre →
  ∃ x, (pre ++ l) !! argmin_from key (length pre) best (key bestitem) l = Some x
       ∧ Forall (λ y, key x ≤ key y) (pre ++ l).
Proof.
  revert pre best bestitem.
  induction l as [|y l IH]; intros pre best bestitem Hbest Hpre; simpl.
  - exists bestitem. rewrite (right_id_L [] (++)) in *. done.
  - assert (pre ++ y :: l = (pre ++ [y]) ++ l) as Happ
      by (by rewrite <-(assoc_L (++))).
    assert (length (pre ++ [y]) = S (length pre)) as Hlen
      by (rewrite length_app; simpl; lia).
    case_decide as Hy.
    + destruct (IH (pre ++ [y]) (length pre) y) as (x & Hx & Hmin).
      { rewrite <-Happ. by apply list_lookup_middle. }
      { apply Forall_app. split; [|by repeat constructor].
        eapply Forall_impl; [done|]. intros z Hz. simpl in Hz. lia. }
      rewrite Hlen, <-Happ in Hx. rewrite <-Happ in Hmin. by exists x.
    + destruct (IH (pre ++ [y]) best bestitem) as (x & Hx & Hmin).
      { by rewrite <-Happ. }
      { apply Forall_app. split; [done|]. repeat constructor. lia. }
      rewrite Hlen, <-Happ in Hx. rewrite <-Happ in Hmin. by exists x.
Qed.

Lemma py_argmin_Returns {A : Type} (key : A → Z) (l : list A) :
  l ≠ [] →
  ∃ i x, py_argmin key l = Returns i ∧ l !! i = Some x
         ∧ Forall (λ y, key x ≤ key y) l.
Proof.
  destruct l as [|x0 l]; [done|]. intros _. unfold py_argmin.
  destruct (argmin_from_spec key [x0] l 0 x0) as (x & Hx & Hmin).
  - done.
  - by repeat constructor.
  - by exists (argmin_from key 1 0 (key x0) l), x.
Qed.

Lemma greedy_place_Returns (bs : list Box) (article : Article) :
  bs ≠ [] →
  ∃ i b, greedy_place bs article = Returns (<[i := add_article b article]> bs)
         ∧ bs !! i = Some b
         ∧ Forall (λ b', get_total_weight_in_grams b ≤ get_total_weight_in_grams b') bs.
Proof.
  intros Hne. unfold greedy_place.
  destruct (py_argmin_Returns get_total_weight_in_grams bs Hne) as (i & b & -> & Hb & Hmin).
  cbn [obind]. unfold py_get. rewrite Hb. cbn [obind]. by exists i, b.
Qed.

Lemma packed_items_app (l1 l2 : list Box) :
  packed_items (l1 ++ l2) = packed_items l1 ++ packed_items l2.
Proof. unfold packed_items. by rewrite fmap_app, join_app. Qed.

Lemma packed_items_insert (bs : list Box) (i : nat) (b : Box) (article : Article) :
  bs !! i = Some b →
  packed_items (<[i := add_article b article]> bs) ≡ₚ article :: packed_items bs.
Proof.
  intros Hb. rewrite insert_take_drop by (by eapply lookup_lt_Some).
  rewrite <-(take_drop_middle bs i b Hb) at 3.
  rewrite !packed_items_app, !packed_items_cons. cbn [add_article box_items].
  rewrite <-(assoc_L (++) (box_items b)). cbn [app].
  rewrite !(assoc_L (++)). symmetry. apply Permutation_middle.
Qed.

Lemma Forall_insert_consistent (bs : list Box) (i : nat) (b : Box) (article : Article) :
  bs !! i = Some b → Forall box_consistent bs →
  Forall box_consistent (<[i := add_article b article]> bs).
Proof.
  intros Hb Hall. apply Forall_insert; [done|].
  apply add_article_consistent. by eapply Forall_lookup_1.
Qed.

(** What the placing loop of [greedy] returns, started on [n > 0] boxes. *)
Lemma greedy_loop_Returns (articles : list Article) (bs : list Box) :
  bs ≠ [] → Forall box_consistent bs →
  ∃ gs, ofoldl greedy_place bs articles = Returns gs
        ∧ length gs = length bs
        ∧ Forall box_consistent gs
        ∧ packed_items gs ≡ₚ articles ++ packed_items bs.
Proof.
  revert bs. induction articles as [|a articles IH]; intros bs Hne Hcons; simpl.
  - by exists bs.
  - destruct (greedy_place_Returns bs a Hne) as (i & b & -> & Hb & _). cbn [obind].
    destruct (IH (<[i := add_article b a]> bs)) as (gs & -> & Hlen & Hcons' & Hitems).
    { intros Hnil. apply (f_equal length) in Hnil. rewrite length_insert in Hnil.
      destruct bs; [done|discriminate]. }
    { by apply Forall_insert_consistent. }
    exists gs. split_and!; [done| |done|].
    + by rewrite Hlen, length_insert.
    + rewrite Hitems, packed_items_insert by done. by rewrite Permutation_middle.
Qed.

(** What [greedy] returns for a number of boxes at least 1. *)
Lemma greedy_Returns (articles : list Article) (number_of_boxes : Z) :
  1 ≤ number_of_boxes →
  ∃ gs, greedy articles number_of_boxes = Returns gs
        ∧ Z.of_nat (length gs) = number_of_boxes
        ∧ packed_items gs ≡ₚ articles
        ∧ Forall box_consistent gs
        ∧ packed_weight gs = py_sum (get_weight_in_grams <$> articles).
Proof.
  intros Hn. unfold greedy.
  destruct (greedy_loop_Returns (sorted_reverse get_weight_in_grams articles)
              (empty_boxes number_of_boxes)) as (gs & Hrun & Hlen & Hcons & Hitems).
  { rewrite empty_boxes_pos by done. discriminate. }
  { apply Forall_replicate, Box_init_consistent. }
  unfold empty_boxes in Hlen, Hitems.
  rewrite length_replicate in Hlen.
  rewrite packed_items_replicate_empty, (right_id_L [] (++)),
    sorted_reverse_Permutation in Hitems.
  exists gs. split_and!; [done|lia|done|done|].
  by rewrite packed_weight_items, Hitems.
Qed.

(** X6.  For every list of articles and every number of boxes at least 1,
    [greedy] returns that number of boxes; the articles of the boxes,
    taken together, are the input articles; every box has a total that
    matches its items; the totals add up to the weight of the input. *)
Theorem greedy_partition (articles : list Article) (number_of_boxes : Z) :
  1 ≤ number_of_boxes →
  ∃ gs, greedy articles number_of_boxes = Returns gs
        ∧ Z.of_nat (length gs) = number_of_boxes
        ∧ packed_items gs ≡ₚ articles
        ∧ Forall box_consistent gs
        ∧ packed_weight gs = py_sum (get_weight_in_grams <$> articles).
Proof. apply greedy_Returns. Qed.

Lemma greedy_partition_witness :
  1 ≤ 3
  ∧ ∃ gs, greedy (articles_of [120; 340; 340; 1000; 5]) 3 = Returns gs
          ∧ Z.of_nat (length gs) = 3
          ∧ packed_items gs ≡ₚ articles_of [120; 340; 340; 1000; 5]
          ∧ Forall box_consistent gs
          ∧ packed_weight gs
            = py_sum (get_weight_in_grams <$> articles_of [120; 340; 340; 1000; 5]).
Proof.
  assert (1 ≤ 3) as Hn by lia.
  exact (conj Hn (greedy_partition _ 3 Hn)).
Defined.

(** X7.  [greedy] does not check the number of boxes.  With a number below
    1 and at least one article it raises the [ValueError] of [min] on an
    empty sequence; with no articles it returns the boxes it has created
    (none when the number is below 1) and raises nothing. *)
Theorem greedy_invalid_count (articles : list Article) (number_of_boxes : Z) :
  (number_of_boxes < 1 → articles ≠ [] →
   ∃ msg, greedy articles number_of_boxes = Raises (ValueError msg))
  ∧ (number_of_boxes < 1 → greedy [] number_of_boxes = Returns [])
  ∧ greedy [] number_of_boxes = Returns (empty_boxes number_of_boxes).
Proof.
  split_and!.
  - intros Hn Hne. unfold greedy, empty_boxes.
    replace (Z.to_nat number_of_boxes) with 0%nat by lia. simpl.
    destruct (sorted_reverse get_weight_in_grams articles) as [|a l] eqn:Hs.
    + apply (f_equal length) in Hs. rewrite length_sorted_reverse in Hs.
      destruct articles; [done|discriminate].
    + simpl. eexists. reflexivity.
  - intros Hn. unfold greedy, empty_boxes.
    replace (Z.to_nat number_of_boxes) with 0%nat by lia. done.
  - done.
Qed.

Lemma greedy_invalid_count_witness :
  0 < 1
  ∧ articles_of [10; 20] ≠ []
  ∧ (∃ msg, greedy (articles_of [10; 20]) 0 = Raises (ValueError msg))
  ∧ greedy [] 0 = Returns [].
Proof.
  assert (0 < 1) as Hn by lia.
  assert (articles_of [10; 20] ≠ []) as Hne by discriminate.
  exact (conj Hn (conj Hne
           (conj (proj1 (greedy_invalid_count (articles_of [10; 20]) 0) Hn Hne)
                 (proj1 (proj2 (greedy_invalid_count (articles_of [10; 20]) 0)) Hn)))).
Defined.

(** ** How far apart the totals of a packing can be *)

Lemma heaviest_bound (articles : list Article) :
  0 ≤ heaviest articles
  ∧ Forall (λ a, get_weight_in_grams a ≤ heaviest articles) articles.
Proof.
  induction articles as [|a articles (IH0 & IH)]; simpl; [split; [lia|constructor]|].
  split; [lia|]. constructor; [lia|].
  eapply Forall_impl; [done|]. intros b Hb. simpl in Hb. lia.
Qed.

Global Instance within_Permutation (W : Z) : Proper (Permutation ==> iff) (within W).
Proof.
  assert (∀ l1 l2, l1 ≡ₚ l2 → within W l1 → within W l2) as Himp.
  { intros l1 l2 Hp Hw b1 b2 Hb1 Hb2. apply Hw; by rewrite Hp. }
  intros l1 l2 Hp. split; apply Himp; [done|by symmetry].
Qed.

Lemma elem_of_insert_inv {A : Type} (l : list A) (i : nat) (x y : A) :
  y ∈ <[i:=x]> l → y = x ∨ y ∈ l.
Proof.
  intros Hy. apply list_elem_of_lookup in Hy as (j & Hj).
  apply list_lookup_insert_Some in Hj as [(_ & -> & _)|(_ & Hj)]; [by left|].
  right. by eapply list_elem_of_lookup_2.
Qed.

Lemma within_insert_lightest (W : Z) (bs : list Box) (i : nat) (b : Box)
    (article : Article) :
  within W bs → bs !! i = Some b →
  Forall (λ b', get_total_weight_in_grams b ≤ get_total_weight_in_grams b') bs →
  0 ≤ get_weight_in_grams article ≤ W →
  within W (<[i := add_article b article]> bs).
Proof.
  intros Hw Hb Hmin Hart b1 b2 Hb1 Hb2.
  apply elem_of_insert_inv in Hb1. apply elem_of_insert_inv in Hb2.
  rewrite Forall_forall in Hmin.
  assert (b ∈ bs) as Hbin by (by eapply list_elem_of_lookup_2).
  unfold get_total_weight_in_grams, get_weight_in_grams in *.
  destruct Hb1 as [->|Hb1], Hb2 as [->|Hb2]; cbn [add_article total_weight_in_grams];
    unfold get_weight_in_grams.
  - lia.
  - specialize (Hmin _ Hb2). simpl in Hmin. lia.
  - specialize (Hw _ _ Hb1 Hbin). unfold get_total_weight_in_grams in Hw. lia.
  - by apply Hw.
Qed.

Lemma greedy_loop_within (W : Z) (articles : list Article) (bs gs : list Box) :
  bs ≠ [] → within W bs →
  Forall (λ a, 0 ≤ get_weight_in_grams a ≤ W) articles →
  ofoldl greedy_place bs articles = Returns gs →
  within W gs.
Proof.
  revert bs. induction articles as [|a articles IH]; intros bs Hne Hw Harts Hrun;
    simpl in Hrun.
  - by injection Hrun as <-.
  - apply Forall_cons in Harts as [Ha Harts].
    destruct (greedy_place_Returns bs a Hne) as (i & b & Hplace & Hb & Hmin).
    rewrite Hplace in Hrun. cbn [obind] in Hrun.
    apply (IH (<[i := add_article b a]> bs)); [|by apply within_insert_lightest|done..].
    intros Hnil. apply (f_equal length) in Hnil. rewrite length_insert in Hnil.
    destruct bs; [done|discriminate].
Qed.

Lemma within_replicate_empty (W : Z) (n : nat) :
  0 ≤ W → within W (replicate n (Box_init [])).
Proof.
  intros HW b1 b2 Hb1 Hb2.
  apply elem_of_replicate in Hb1 as [-> _]. apply elem_of_replicate in Hb2 as [-> _].
  lia.
Qed.

(** X8.  For articles of positive weight and a number of boxes at least 1,
    the spread of the packing [greedy] returns is at most the weight of
    the heaviest article. *)
Theorem greedy_spread_bound (articles : list Article) (number_of_boxes : Z) :
  Forall (λ a, 0 < get_weight_in_grams a) articles →
  1 ≤ number_of_boxes →
  ∃ gs s, greedy articles number_of_boxes = Returns gs
          ∧ spread gs = Returns s
          ∧ 0 ≤ s ≤ heaviest articles.
Proof.
  intros Hpos Hn.
  destruct (greedy_Returns articles number_of_boxes Hn) as (gs & Hrun & Hlen & _).
  destruct (spread_Returns gs) as (s & Hs & _ & H0 & _ & b1 & b2 & Hb1 & Hb2 & Hdiff).
  { intros ->. simpl in Hlen. lia. }
  exists gs, s. split_and!; [done..|].
  destruct (heaviest_bound articles) as (HW0 & HW).
  assert (within (heaviest articles) gs) as Hwithin.
  { unfold greedy in Hrun.
    eapply (greedy_loop_within _ (sorted_reverse get_weight_in_grams articles));
      [| |
       |exact Hrun].
    - rewrite empty_boxes_pos by done. discriminate.
    - by apply within_replicate_empty.
    - rewrite sorted_reverse_Permutation.
      rewrite Forall_forall in Hpos, HW. apply Forall_forall. intros a Ha.
      specialize (Hpos a Ha). specialize (HW a Ha). simpl in *. lia. }
  rewrite <-Hdiff. by apply Hwithin.
Qed.

Lemma greedy_spread_bound_witness :
  Forall (λ a, 0 < get_weight_in_grams a) (articles_of [900; 800; 700; 600; 500])
  ∧ 1 ≤ 2
  ∧ ∃ gs s, greedy (articles_of [900; 800; 700; 600; 500]) 2 = Returns gs
            ∧ spread gs = Returns s
            ∧ 0 ≤ s ≤ heaviest (articles_of [900; 800; 700; 600; 500]).
Proof.
  assert (Forall (λ a, 0 < get_weight_in_grams a)
            (articles_of [900; 800; 700; 600; 500])) as Hpos
    by (repeat constructor).
  assert (1 ≤ 2) as Hn by lia.
  exact (conj Hpos (conj Hn (greedy_spread_bound _ 2 Hpos Hn))).
Defined.

(** ** Properties of every entry of the queue *)

Lemma weigh_boxes_boxes (bs : list Box) (wb : WeighedBoxes) :
  weigh_boxes bs = Returns wb → boxes wb = bs ∧ entry_weighed wb.
Proof.
  intros Hw. assert (boxes wb = bs) as Hb.
  { unfold weigh_boxes in Hw.
    destruct (py_min (get_total_weight_in_grams <$> bs)); cbn [obind] in Hw; try done.
    destruct (py_max (get_total_weight_in_grams <$> bs)); cbn [obind] in Hw; try done.
    by injection Hw as <-. }
  split; [done|]. unfold entry_weighed. by rewrite Hb.
Qed.

Lemma omap_Returns_Forall {A B : Type} (f : A → outcome B) (l : list A) (ys : list B) :
  omap f l = Returns ys → Forall (λ y, ∃ x, x ∈ l ∧ f x = Returns y) ys.
Proof.
  revert ys. induction l as [|x l IH]; intros ys Hrun; simpl in Hrun.
  - injection Hrun as <-. constructor.
  - destruct (f x) as [y| |] eqn:Hx; cbn [obind] in Hrun; try done.
    destruct (omap f l) as [ys'| |]; cbn [obind] in Hrun; try done.
    injection Hrun as <-. constructor.
    + exists x. split; [by left|done].
    + eapply Forall_impl; [by apply IH|]. intros y' (x' & Hin & Hfx).
      exists x'. split; [by right|done].
Qed.

(** Every entry of the queue the [while] loop starts with was seeded from
    one of the articles. *)
Lemma ldm_init_seeded (articles : list Article) (number_of_boxes : Z)
    (heap0 : list WeighedBoxes) :
  1 ≤ number_of_boxes →
  ldm_init articles number_of_boxes = Returns heap0 →
  Forall (λ wb, ∃ a, a ∈ articles
                     ∧ boxes wb = seeded_boxes number_of_boxes a
                     ∧ entry_weighed wb) heap0.
Proof.
  intros Hn Hinit. unfold ldm_init in Hinit.
  destruct (ldm_seed articles number_of_boxes) as [seeded| |] eqn:Hseed;
    cbn [obind] in Hinit; try done.
  destruct (heapify_Returns WeighedBoxes_lt seeded) as (heap & Hheap & Hperm).
  assert (heap = heap0) as -> by congruence.
  rewrite Hperm. unfold ldm_seed in Hseed.
  eapply Forall_impl; [by eapply omap_Returns_Forall|].
  intros wb (a & Ha & Hwb). simpl in Hwb. exists a.
  rewrite sorted_reverse_Permutation in Ha. split; [done|].
  unfold seed_boxes in Hwb. rewrite empty_boxes_pos in Hwb by done.
  by apply weigh_boxes_boxes in Hwb.
Qed.

Lemma ldm_step_weighed (n : nat) (heap : list WeighedBoxes) :
  (2 ≤ length heap)%nat → (0 < n)%nat → Forall (entry_inv n) heap →
  ∃ a b rest wb heap',
    heap ≡ₚ a :: b :: rest
    ∧ weigh_boxes (combine_boxes (boxes a) (boxes b)) = Returns wb
    ∧ ldm_step heap = Returns heap'
    ∧ heap' ≡ₚ wb :: rest.
Proof.
  intros Hlen Hn Hinv. unfold ldm_step.
  destruct (heappop_Returns WeighedBoxes_lt heap) as (a & h1 & -> & Hp1).
  { intros ->. simpl in Hlen. lia. }
  cbn [obind].
  destruct (heappop_Returns WeighedBoxes_lt h1) as (b & h2 & -> & Hp2).
  { intros ->. apply Permutation_length in Hp1. simpl in Hp1. lia. }
  cbn [obind].
  assert (heap ≡ₚ a :: b :: h2) as Hheap by (by rewrite Hp2).
  rewrite Hheap in Hinv.
  apply Forall_cons in Hinv as [Ha Hinv]. apply Forall_cons in Hinv as [Hb Hinv].
  destruct (weigh_boxes_Returns (combine_boxes (boxes a) (boxes b))) as (d & Hw).
  { intros Hnil. apply (f_equal length) in Hnil.
    destruct Ha as (Ha & _), Hb as (Hb & _).
    rewrite combine_boxes_length in Hnil by congruence. simpl in Hnil. lia. }
  rewrite Hw. cbn [obind].
  destruct (heappush_Returns WeighedBoxes_lt h2
              (mkWeighedBoxes d (combine_boxes (boxes a) (boxes b))))
    as (heap' & -> & Hp3).
  by exists a, b, h2, (mkWeighedBoxes d (combine_boxes (boxes a) (boxes b))), heap'.
Qed.

(** A property of the entries that the seeds have and that weighing the
    combination of two entries keeps holds of every entry of every queue
    the loop reaches. *)
Lemma ldm_reaches_Forall (P : WeighedBoxes → Prop) (n : nat)
    (h h' : list WeighedBoxes) :
  (∀ a b wb, entry_inv n a → entry_inv n b → P a → P b →
     weigh_boxes (combine_boxes (boxes a) (boxes b)) = Returns wb → P wb) →
  ldm_reaches h h' → (0 < n)%nat → Forall (entry_inv n) h → Forall P h →
  Forall P h'.
Proof.
  intros Hcomb Hreach Hn.
  induction Hreach as [h|h h1 h2 Hlen Hstep _ IH]; intros Hinv HP; [done|].
  destruct (ldm_step_inv n h h1 ltac:(lia) Hn Hinv Hstep) as (Hinv1 & _).
  apply IH; [done|].
  destruct (ldm_step_weighed n h ltac:(lia) Hn Hinv)
    as (a & b & rest & wb & heap' & Hperm & Hw & Hrun & Hperm').
  assert (heap' = h1) as -> by congruence.
  rewrite Hperm in Hinv, HP.
  apply Forall_cons in Hinv as [Ha Hinv]. apply Forall_cons in Hinv as [Hb _].
  apply Forall_cons in HP as [HPa HP]. apply Forall_cons in HP as [HPb HP].
  rewrite Hperm'. constructor; [exact (Hcomb a b wb Ha Hb HPa HPb Hw)|done].
Qed.

(** The boxes [__ldm] returns are the boxes of the one entry left in the
    queue when the loop ends. *)
Lemma ldm_final (articles : list Article) (number_of_boxes : Z) :
  articles ≠ [] → 1 ≤ number_of_boxes →
  Forall (λ a, 0 < get_weight_in_grams a) articles →
  ∃ heap0 final,
    ldm_init articles number_of_boxes = Returns heap0
    ∧ Forall (entry_inv (Z.to_nat number_of_boxes)) heap0
    ∧ ldm_reaches heap0 [final]
    ∧ ldm articles number_of_boxes = Returns (boxes final).
Proof.
  intros Hne Hn Hpos. unfold ldm.
  destruct (ldm_init_Returns articles number_of_boxes Hn Hpos)
    as (heap & Hinit & Hlen & Hinv & Hitems). rewrite Hinit. cbn [obind].
  destruct (ldm_loop_Returns (Z.to_nat number_of_boxes) (length heap) heap)
    as (heap' & -> & Hreach & Hlen'); [lia|lia|done|]. cbn [obind].
  destruct (ldm_reaches_inv (Z.to_nat number_of_boxes) _ _ Hreach ltac:(lia) Hinv)
    as (_ & _ & _ & Hne').
  assert (heap ≠ []) as Hheap.
  { intros ->. destruct articles; [done|]. simpl in Hlen. lia. }
  specialize (Hne' Hheap).
  destruct heap' as [|final [|? ?]]; [done| |simpl in Hlen'; lia].
  destruct (heappop_Returns WeighedBoxes_lt [final]) as (item & rest & Hpop & Hperm);
    [done|].
  rewrite Hpop. cbn [obind].
  apply Permutation_singleton_r in Hperm. injection Hperm as -> ->.
  by exists heap, final.
Qed.

(** ** The spread of what [pack] returns *)

Lemma descending_lookup (bs : list Box) (i j : nat) (x y : Box) :
  boxes_descending bs → (i ≤ j)%nat → bs !! i = Some x → bs !! j = Some y →
  get_total_weight_in_grams y ≤ get_total_weight_in_grams x.
Proof.
  intros Hs. apply Sorted_StronglySorted in Hs.
  2:{ intros a b c. unfold key_ge. lia. }
  revert i j. induction Hs as [|a l _ IH Hall]; intros i j Hij Hi Hj; [done|].
  destruct i as [|i], j as [|j]; simpl in Hi, Hj.
  - injection Hi as ->. injection Hj as ->. lia.
  - injection Hi as ->. rewrite Forall_forall in Hall.
    apply (Hall y). by eapply list_elem_of_lookup_2.
  - lia.
  - apply (IH i j); [lia|done..].
Qed.

Lemma within_combine_boxes (W : Z) (n : nat) (a b : WeighedBoxes) :
  entry_inv n a → entry_inv n b →
  within W (boxes a) → within W (boxes b) →
  within W (combine_boxes (boxes a) (boxes b)).
Proof.
  intros (Hla & Hca & Hda) (Hlb & Hcb & Hdb) Hwa Hwb.
  unfold combine_boxes. rewrite sorted_reverse_Permutation.
  assert (∀ i j c1 c2, (i ≤ j)%nat →
            zip_with combine (boxes a) (reverse (boxes b)) !! i = Some c1 →
            zip_with combine (boxes a) (reverse (boxes b)) !! j = Some c2 →
            get_total_weight_in_grams c1 - get_total_weight_in_grams c2 ≤ W
            ∧ get_total_weight_in_grams c2 - get_total_weight_in_grams c1 ≤ W) as Hpair.
  { intros i j c1 c2 Hij Hc1 Hc2.
    apply lookup_zip_with_Some in Hc1 as (x1 & y1 & -> & Hx1 & Hy1).
    apply lookup_zip_with_Some in Hc2 as (x2 & y2 & -> & Hx2 & Hy2).
    apply reverse_lookup_Some in Hy1 as (Hy1 & Hi).
    apply reverse_lookup_Some in Hy2 as (Hy2 & Hj).
    rewrite Forall_forall in Hca, Hcb.
    assert (x1 ∈ boxes a) as Hx1in by (by eapply list_elem_of_lookup_2).
    assert (x2 ∈ boxes a) as Hx2in by (by eapply list_elem_of_lookup_2).
    assert (y1 ∈ boxes b) as Hy1in by (by eapply list_elem_of_lookup_2).
    assert (y2 ∈ boxes b) as Hy2in by (by eapply list_elem_of_lookup_2).
    unfold get_total_weight_in_grams.
    rewrite !combine_total by auto.
    pose proof (descending_lookup _ i j x1 x2 Hda Hij Hx1 Hx2) as Hx.
    pose proof (descending_lookup _ (length (boxes b) - S j) (length (boxes b) - S i)
                  y2 y1 Hdb ltac:(lia) Hy2 Hy1) as Hy.
    pose proof (Hwa _ _ Hx1in Hx2in) as Hwx.
    pose proof (Hwb _ _ Hy2in Hy1in) as Hwy.
    unfold get_total_weight_in_grams in *. lia. }
  intros c1 c2 Hc1 Hc2.
  apply list_elem_of_lookup in Hc1 as (i & Hi).
  apply list_elem_of_lookup in Hc2 as (j & Hj).
  destruct (decide (i ≤ j)%nat) as [Hij|Hij].
  - by apply (Hpair i j c1 c2 Hij).
  - by apply (Hpair j i c2 c1 ltac:(lia)).
Qed.

Lemma within_seeded_boxes (W : Z) (number_of_boxes : Z) (article : Article) :
  0 ≤ get_weight_in_grams article ≤ W →
  within W (seeded_boxes number_of_boxes article).
Proof.
  intros Hw b1 b2 Hb1 Hb2. unfold seeded_boxes in Hb1, Hb2.
  apply elem_of_cons in Hb1 as [->|Hb1]; apply elem_of_cons in Hb2 as [->|Hb2];
    try (apply elem_of_replicate in Hb1 as [-> _]);
    try (apply elem_of_replicate in Hb2 as [-> _]);
    unfold get_total_weight_in_grams in *; simpl; rewrite ?py_sum_nil; lia.
Qed.

(** X9.  For articles of positive weight and a number of boxes at least 1,
    the spread of the packing [pack] returns is at most the weight of the
    heaviest article. *)
Theorem pack_spread_bound (articles : list Article) (number_of_boxes : Z) :
  Forall (λ a, 0 < get_weight_in_grams a) articles →
  1 ≤ number_of_boxes →
  ∃ bs s, pack articles number_of_boxes = Returns bs
          ∧ spread bs = Returns s
          ∧ 0 ≤ s ≤ heaviest articles.
Proof.
  intros Hpos Hn.
  destruct (pack_Returns articles number_of_boxes Hn Hpos) as (bs & Hrun & Hlen & _).
  destruct (spread_Returns bs) as (s & Hs & _ & H0 & _ & b1 & b2 & Hb1 & Hb2 & Hdiff).
  { intros ->. simpl in Hlen. lia. }
  exists bs, s. split_and!; [done..|].
  destruct (heaviest_bound articles) as (HW0 & HW).
  assert (within (heaviest articles) bs) as Hwithin; [|rewrite <-Hdiff; by apply Hwithin].
  clear b1 b2 Hb1 Hb2 Hdiff Hs H0 s.
  unfold pack in Hrun. destruct articles as [|a0 articles].
  { injection Hrun as <-. by apply within_replicate_empty. }
  rewrite decide_False in Hrun by lia. case_decide as H1.
  { injection Hrun as <-. intros b1 b2 Hb1 Hb2.
    apply list_elem_of_singleton in Hb1 as ->.
    apply list_elem_of_singleton in Hb2 as ->. lia. }
  destruct (ldm_final (a0 :: articles) number_of_boxes ltac:(done) Hn Hpos)
    as (heap0 & final & Hinit & Hinv0 & Hreach & Hldm).
  assert (bs = boxes final) as -> by congruence.
  pose proof (ldm_init_seeded _ _ _ Hn Hinit) as Hseeded.
  assert (Forall (λ wb, within (heaviest (a0 :: articles)) (boxes wb)) [final]) as Hfinal.
  { eapply (ldm_reaches_Forall _ (Z.to_nat number_of_boxes) heap0);
      [|exact Hreach|lia|done|].
    - intros a b wb Ha Hb Hwa Hwb Hw. apply weigh_boxes_boxes in Hw as [-> _].
      by eapply within_combine_boxes.
    - eapply Forall_impl; [exact Hseeded|]. intros wb (a & Ha & -> & _).
      apply within_seeded_boxes.
      rewrite Forall_forall in Hpos, HW.
      specialize (Hpos a Ha). specialize (HW a Ha). simpl in *. lia. }
  exact (proj1 (Forall_singleton _ _) Hfinal).
Qed.

Lemma pack_spread_bound_witness :
  Forall (λ a, 0 < get_weight_in_grams a) (articles_of [900; 800; 700; 600; 500])
  ∧ 1 ≤ 2
  ∧ ∃ bs s, pack (articles_of [900; 800; 700; 600; 500]) 2 = Returns bs
            ∧ spread bs = Returns s
            ∧ 0 ≤ s ≤ heaviest (articles_of [900; 800; 700; 600; 500]).
Proof.
  assert (Forall (λ a, 0 < get_weight_in_grams a)
            (articles_of [900; 800; 700; 600; 500])) as Hpos
    by (repeat constructor).
  assert (1 ≤ 2) as Hn by lia.
  exact (conj Hpos (conj Hn (pack_spread_bound _ 2 Hpos Hn))).
Defined.

(** X10.  For articles of positive weight and a number of boxes at least
    1, every box [pack] returns has a total weight equal to the sum of the
    weights of its items. *)
Theorem pack_boxes_consistent (articles : list Article) (number_of_boxes : Z) :
  Forall (λ a, 0 < get_weight_in_grams a) articles →
  1 ≤ number_of_boxes →
  ∃ bs, pack articles number_of_boxes = Returns bs
        ∧ Forall (λ b, get_total_weight_in_grams b
                       = py_sum (get_weight_in_grams <$> get_box_items b)) bs.
Proof.
  intros Hpos Hn.
  destruct (pack_Returns articles number_of_boxes Hn Hpos) as (bs & Hrun & _ & Hcons & _).
  by exists bs.
Qed.

Lemma pack_boxes_consistent_witness :
  Forall (λ a, 0 < get_weight_in_grams a) (articles_of [15; 40; 40; 7])
  ∧ 1 ≤ 3
  ∧ ∃ bs, pack (articles_of [15; 40; 40; 7]) 3 = Returns bs
          ∧ Forall (λ b, get_total_weight_in_grams b
                         = py_sum (get_weight_in_grams <$> get_box_items b)) bs.
Proof.
  assert (Forall (λ a, 0 < get_weight_in_grams a) (articles_of [15; 40; 40; 7])) as Hpos
    by (repeat constructor).
  assert (1 ≤ 3) as Hn by lia.
  exact (conj Hpos (conj Hn (pack_boxes_consistent _ 3 Hpos Hn))).
Defined.

(** ** The priority queue keeps the heap order *)

Section heap_order_facts.
Context {A : Type} (lt : A → A → bool).
Hypothesis Hswo : strict_weak_order lt.

Lemma not_after_refl (x : A) : not_after lt x x.
Proof. destruct Hswo as (Hirr & _). apply Hirr. Qed.

Lemma lt_not_after (x y : A) : lt x y = true → not_after lt x y.
Proof. destruct Hswo as (_ & Hasym & _). apply Hasym. Qed.

Lemma not_after_trans (x y z : A) :
  not_after lt x y → not_after lt y z → not_after lt x z.
Proof. destruct Hswo as (_ & _ & Htrans). apply Htrans. Qed.

Lemma parent_child_of (pos : nat) :
  (0 < pos)%nat → child_of (Nat.shiftr (pos - 1) 1) pos.
Proof.
  intros Hpos. unfold child_of. rewrite Nat.shiftr_div_pow2.
  change (2 ^ 1)%nat with 2%nat.
  pose proof (Nat.div_mod_eq (pos - 1) 2).
  pose proof (Nat.mod_upper_bound (pos - 1) 2 ltac:(lia)). lia.
Qed.

Lemma child_of_parent (p c : nat) :
  child_of p c → Nat.shiftr (c - 1) 1 = p ∧ (p < c)%nat.
Proof.
  unfold child_of. intros Hc. rewrite Nat.shiftr_div_pow2.
  change (2 ^ 1)%nat with 2%nat.
  pose proof (Nat.div_mod_eq (c - 1) 2).
  pose proof (Nat.mod_upper_bound (c - 1) 2 ltac:(lia)). lia.
Qed.

Lemma child_of_inj (p q c : nat) : child_of p c → child_of q c → p = q.
Proof. unfold child_of. lia. Qed.

Lemma below_le (s c : nat) : below s c → (s ≤ c)%nat.
Proof.
  induction 1 as [|p c _ IH Hc]; [done|]. apply child_of_parent in Hc. lia.
Qed.

Lemma below_parent (s c : nat) :
  below s c → (s < c)%nat → below s (Nat.shiftr (c - 1) 1).
Proof.
  destruct 1 as [|p c Hp Hc]; [lia|]. intros _.
  apply child_of_parent in Hc as [-> _]. done.
Qed.

Lemma below_0 (n : nat) : below 0 n.
Proof.
  induction n as [n IH] using lt_wf_ind. destruct n as [|n]; [constructor|].
  pose proof (parent_child_of (S n) ltac:(lia)) as Hc.
  eapply below_child; [|exact Hc]. apply IH. apply child_of_parent in Hc. lia.
Qed.

(** The root of a heap does not come after any element. *)
Lemma heap_root_first (h : list A) (x : A) :
  is_heap lt h → h !! 0%nat = Some x →
  ∀ i y, h !! i = Some y → not_after lt x y.
Proof.
  intros Hheap Hx i. induction (below_0 i) as [|p c _ IH Hc]; intros y Hy.
  - assert (y = x) as -> by congruence. apply not_after_refl.
  - destruct (lookup_lt_is_Some_2 h p) as [z Hz].
    { apply lookup_lt_Some in Hy. apply child_of_parent in Hc. lia. }
    eapply not_after_trans; [by apply IH|].
    eapply (Hheap p c); [lia|done..].
Qed.

Lemma siftdown_loop_heap (fuel : nat) (g : list A) (newitem : A) (s pos : nat)
    (h' : list A) :
  below s pos → (pos < length g)%nat →
  heap_hole lt s pos (<[pos:=newitem]> g) →
  heap_grand lt s pos (<[pos:=newitem]> g) →
  siftdown_loop lt fuel g newitem s pos = Returns h' →
  heap_from lt s h'.
Proof.
  revert g pos. induction fuel as [|fuel IH]; intros g pos Hbelow Hlen Hhole Hgrand Hrun;
    cbn [siftdown_loop] in Hrun.
  - case_decide as Hpos; [done|]. rewrite py_set_Returns in Hrun by done.
    injection Hrun as <-. intros p c x y Hp Hc Hx Hy.
    apply (Hhole p c); [done..| |done|done].
    intros ->. apply child_of_parent in Hc. lia.
  - case_decide as Hpos.
    2:{ rewrite py_set_Returns in Hrun by done.
        injection Hrun as <-. intros p c x y Hp Hc Hx Hy.
        apply (Hhole p c); [done..| |done|done].
        intros ->. apply child_of_parent in Hc. lia. }
    pose proof (parent_child_of pos ltac:(lia)) as Hq.
    pose proof (below_parent s pos Hbelow Hpos) as Hbq.
    pose proof (below_le _ _ Hbq) as Hsq.
    set (q := Nat.shiftr (pos - 1) 1) in *.
    pose proof (child_of_parent q pos Hq) as [_ Hqpos].
    destruct (py_get_Returns g q ltac:(lia)) as (parent & Hparent & Hget).
    rewrite Hget in Hrun. cbn [obind] in Hrun.
    assert (<[pos:=newitem]> g !! q = Some parent) as HGq
      by (rewrite list_lookup_insert_ne by lia; done).
    assert (<[pos:=newitem]> g !! pos = Some newitem) as HGpos
      by (by apply list_lookup_insert_eq).
    destruct (lt newitem parent) eqn:Hlt.
    2:{ rewrite py_set_Returns in Hrun by done. injection Hrun as <-.
        intros p c x y Hp Hc Hx Hy.
        destruct (decide (c = pos)) as [->|Hcpos]; [|by apply (Hhole p c)].
        assert (p = q) as -> by (by eapply child_of_inj).
        assert (x = parent) as -> by congruence.
        assert (y = newitem) as -> by congruence. exact Hlt. }
    rewrite py_set_Returns in Hrun by done. cbn [obind] in Hrun.
    assert (∀ k v, <[q:=newitem]> (<[pos:=parent]> g) !! k = Some v →
              (k = q ∧ v = newitem) ∨ (k = pos ∧ v = parent)
              ∨ (k ≠ q ∧ k ≠ pos ∧ <[pos:=newitem]> g !! k = Some v)) as Hlook.
    { intros k v Hk.
      apply list_lookup_insert_Some in Hk as [(<- & <- & _)|(Hkq & Hk)]; [by left|].
      apply list_lookup_insert_Some in Hk as [(<- & <- & _)|(Hkpos & Hk)];
        [right; by left|].
      right; right. split_and!; [done..|]. by rewrite list_lookup_insert_ne. }
    apply (IH (<[pos:=parent]> g) q); [done|rewrite length_insert; lia| | |done].
    + intros p c x y Hp Hc Hcq Hx Hy.
      apply Hlook in Hy as [(-> & ->)|[(-> & ->)|(_ & Hcpos & Hy)]]; [done| |].
      * assert (p = q) as -> by (by eapply child_of_inj).
        apply Hlook in Hx as [(_ & ->)|[(-> & _)|(? & _)]]; [|lia|done].
        by apply lt_not_after.
      * apply Hlook in Hx as [(-> & ->)|[(-> & ->)|(_ & _ & Hx)]].
        -- eapply not_after_trans; [by apply lt_not_after|].
           by apply (Hhole q c).
        -- by apply (Hgrand q c).
        -- by apply (Hhole p c).
    + intros r c x y Hr Hrq Hqc Hx Hy.
      pose proof (child_of_parent r q Hrq) as [_ Hrlt].
      pose proof (child_of_parent q c Hqc) as [_ Hclt].
      apply Hlook in Hx as [(-> & _)|[(-> & _)|(_ & _ & Hx)]]; [lia|lia|].
      assert (not_after lt x parent) as Hxp.
      { apply (Hhole r q); [done..|lia|done|done]. }
      apply Hlook in Hy as [(-> & _)|[(-> & ->)|(_ & Hcpos & Hy)]]; [lia|done|].
      eapply not_after_trans; [exact Hxp|]. by apply (Hhole q c).
Qed.

Lemma siftup_loop_heap (fuel : nat) (h : list A) (s pos childpos : nat)
    (h1 : list A) (pos1 : nat) :
  childpos = (2 * pos + 1)%nat → below s pos → (pos < length h)%nat →
  heap_sinking lt s pos h →
  siftup_loop lt fuel h (length h) pos childpos = Returns (h1, pos1) →
  below s pos1 ∧ (pos1 < length h1)%nat ∧ (length h1 ≤ 2 * pos1 + 1)%nat
  ∧ heap_sinking lt s pos1 h1.
Proof.
  revert h pos childpos.
  induction fuel as [|fuel IH]; intros h pos childpos -> Hbelow Hlen Hsink Hrun;
    cbn [siftup_loop] in Hrun.
  - case_decide as Hend; [done|]. injection Hrun as <- <-. split_and!; [done|done|lia|done].
  - case_decide as Hend.
    2:{ injection Hrun as <- <-. split_and!; [done|done|lia|done]. }
    pose proof (below_le _ _ Hbelow) as Hspos.
    assert (∃ childpos' child,
      (if decide (2 * pos + 1 + 1 < length h)%nat
       then c ←! py_get h (2 * pos + 1)%nat;
            r ←! py_get h (2 * pos + 1 + 1)%nat;
            Returns (if negb (lt c r) then (2 * pos + 1 + 1)%nat else (2 * pos + 1)%nat)
       else Returns (2 * pos + 1)%nat) = Returns childpos'
      ∧ child_of pos childpos'
      ∧ h !! childpos' = Some child
      ∧ ∀ c y, child_of pos c → h !! c = Some y → not_after lt child y)
      as (childpos' & child & Hchoice & Hcc & Hchild & Hleast).
    { destruct (py_get_Returns h (2 * pos + 1)%nat Hend) as (cl & Hcl & Hgetl).
      case_decide as Hright.
      - destruct (py_get_Returns h (2 * pos + 1 + 1)%nat Hright) as (cr & Hcr & Hgetr).
        rewrite Hgetl, Hgetr. cbn [obind]. destruct (lt cl cr) eqn:Hlt; simpl.
        + exists (2 * pos + 1)%nat, cl. split_and!; [done|by left|done|].
          intros c y [->| ->] Hy.
          * assert (y = cl) as -> by congruence. apply not_after_refl.
          * replace (2 * pos + 2)%nat with (2 * pos + 1 + 1)%nat in Hy by lia.
            assert (y = cr) as -> by congruence. by apply lt_not_after.
        + exists (2 * pos + 1 + 1)%nat, cr.
          split_and!; [done|right; lia|done|].
          intros c y [->| ->] Hy.
          * assert (y = cl) as -> by congruence. exact Hlt.
          * replace (2 * pos + 2)%nat with (2 * pos + 1 + 1)%nat in Hy by lia.
            assert (y = cr) as -> by congruence. apply not_after_refl.
      - exists (2 * pos + 1)%nat, cl. split_and!; [done|by left|done|].
        intros c y [->| ->] Hy.
        + assert (y = cl) as -> by congruence. apply not_after_refl.
        + apply lookup_lt_Some in Hy. lia. }
    rewrite Hchoice in Hrun. cbn [obind] in Hrun.
    unfold py_get in Hrun at 1. rewrite Hchild in Hrun. cbn [obind] in Hrun.
    rewrite py_set_Returns in Hrun by done. cbn [obind] in Hrun.
    pose proof (child_of_parent pos childpos' Hcc) as [_ Hposlt].
    pose proof (lookup_lt_Some _ _ _ Hchild) as Hc'len.
    rewrite <-(length_insert h pos child) in Hrun.
    apply IH in Hrun; [done|done|by eapply below_child|rewrite length_insert; lia|].
    intros p c x y Hp Hc _ Hx Hy.
    apply list_lookup_insert_Some in Hx as [(<- & <- & _)|(Hppos & Hx)].
    + apply list_lookup_insert_Some in Hy as [(-> & _)|(_ & Hy)].
      { apply child_of_parent in Hc. lia. }
      by apply (Hleast c).
    + apply list_lookup_insert_Some in Hy as [(<- & <- & _)|(Hcpos & Hy)].
      * pose proof (child_of_parent p pos Hc) as [_ Hplt].
        destruct (lookup_lt_is_Some_2 h pos Hlen) as [z Hz].
        eapply (not_after_trans _ z).
        -- apply (Hsink p pos); [done|done|lia|done|done].
        -- apply (Hsink pos childpos'); [done|done|lia|done|done].
      * apply (Hsink p c); [done|done|lia|done|done].
Qed.

Lemma siftup_heap (h : list A) (s : nat) (h' : list A) :
  heap_from lt (S s) h →
  _siftup lt h s = Returns h' →
  heap_from lt s h'.
Proof.
  intros Hheap Hrun. unfold _siftup in Hrun.
  destruct (h !! s) as [newitem|] eqn:Hnew.
  2:{ unfold py_get in Hrun. by rewrite Hnew in Hrun. }
  unfold py_get in Hrun at 1. rewrite Hnew in Hrun. cbn [obind] in Hrun.
  pose proof (lookup_lt_Some _ _ _ Hnew) as Hlen.
  destruct (siftup_loop lt (length h) h (length h) s (2 * s + 1))
    as [[h1 pos1]| |] eqn:Hloop; cbn [obind] in Hrun; try done.
  apply (siftup_loop_heap _ _ s) in Hloop as (Hbelow & Hpos1 & Hleaf & Hsink);
    [|done|constructor|done|].
  2:{ intros p c x y Hp Hc Hps Hx Hy. apply (Hheap p c); [|done..].
      destruct (decide (p = s)) as [->|]; [specialize (Hps eq_refl)|]; lia. }
  rewrite py_set_Returns in Hrun by done. cbn [obind] in Hrun.
  unfold _siftdown in Hrun. unfold py_get in Hrun.
  rewrite list_lookup_insert_eq in Hrun by done. cbn [obind] in Hrun.
  apply (siftdown_loop_heap pos1 (<[pos1:=newitem]> h1) newitem s pos1 h');
    [done|by rewrite length_insert| | |exact Hrun].
  - rewrite list_insert_insert_eq. intros p c x y Hp Hc Hcpos Hx Hy.
    apply list_lookup_insert_Some in Hy as [(? & _)|(_ & Hy)]; [done|].
    apply list_lookup_insert_Some in Hx as [(<- & _)|(Hppos & Hx)].
    + apply lookup_lt_Some in Hy. unfold child_of in Hc. lia.
    + apply (Hsink p c); [done|done|done|done|done].
  - rewrite list_insert_insert_eq. intros q c x y Hq Hqpos Hc Hx Hy.
    apply lookup_lt_Some in Hy. rewrite length_insert in Hy.
    unfold child_of in Hc. lia.
Qed.

Lemma ofoldl_siftup_heap (k : nat) (h h' : list A) :
  heap_from lt k h →
  ofoldl (_siftup lt) h (reverse (seq 0 k)) = Returns h' →
  is_heap lt h'.
Proof.
  revert h. induction k as [|k IH]; intros h Hheap Hrun.
  - simpl in Hrun. by injection Hrun as <-.
  - rewrite seq_S, reverse_snoc in Hrun. simpl in Hrun.
    destruct (_siftup lt h k) as [h1| |] eqn:Hsift; cbn [obind] in Hrun; try done.
    apply (IH h1); [|done]. by eapply siftup_heap.
Qed.

(** [heapify] leaves a heap. *)
Lemma heapify_heap (x h : list A) : heapify lt x = Returns h → is_heap lt h.
Proof.
  unfold heapify. apply ofoldl_siftup_heap.
  intros p c a b Hp Hc Ha Hb. apply lookup_lt_Some in Hb.
  pose proof (Nat.div_mod_eq (length x) 2).
  pose proof (Nat.mod_upper_bound (length x) 2 ltac:(lia)).
  unfold child_of in Hc. lia.
Qed.

(** [heappush] keeps a heap a heap. *)
Lemma heappush_heap (heap : list A) (item : A) (h' : list A) :
  is_heap lt heap → heappush lt heap item = Returns h' → is_heap lt h'.
Proof.
  intros Hheap Hrun. unfold heappush, _siftdown in Hrun.
  replace (length (heap ++ [item]) - 1)%nat with (length heap) in Hrun
    by (rewrite length_app; simpl; lia).
  unfold py_get in Hrun. rewrite list_lookup_middle in Hrun by done.
  cbn [obind] in Hrun.
  apply (siftdown_loop_heap (length heap) (heap ++ [item]) item 0 (length heap) h');
    [apply below_0|rewrite length_app; simpl; lia| | |exact Hrun].
  - rewrite list_insert_id by (by apply list_lookup_middle).
    intros p c x y Hp Hc Hcpos Hx Hy.
    pose proof (child_of_parent p c Hc) as [_ Hpc].
    assert (c < length heap)%nat as Hclt.
    { apply lookup_lt_Some in Hy. rewrite length_app in Hy. simpl in Hy. lia. }
    rewrite lookup_app_l in Hx by lia. rewrite lookup_app_l in Hy by lia.
    by apply (Hheap p c).
  - rewrite list_insert_id by (by apply list_lookup_middle).
    intros q c x y Hq Hqpos Hc Hx Hy.
    apply lookup_lt_Some in Hy. rewrite length_app in Hy. simpl in Hy.
    unfold child_of in Hc. lia.
Qed.

(** [heappop] on a heap yields an element that does not come after any
    other and leaves a heap. *)
Lemma heappop_heap (heap : list A) (item : A) (h' : list A) :
  is_heap lt heap → heappop lt heap = Returns (item, h') →
  is_heap lt h' ∧ ∀ y, y ∈ heap → not_after lt item y.
Proof.
  intros Hheap Hrun. unfold heappop in Hrun.
  destruct (last heap) as [lastelt|] eqn:Hlast; [|done].
  apply last_removelast in Hlast.
  destruct (removelast heap) as [|returnitem rest] eqn:Hrem.
  - injection Hrun as <- <-. split.
    + intros p c x y _ _ Hx. done.
    + intros y Hy. rewrite Hlast in Hy. apply list_elem_of_singleton in Hy as ->.
      apply not_after_refl.
  - rewrite py_set_Returns in Hrun by (simpl; lia). cbn [obind] in Hrun.
    destruct (_siftup lt (<[0%nat:=lastelt]> (returnitem :: rest)) 0)
      as [h1| |] eqn:Hsift; cbn [obind] in Hrun; try done.
    injection Hrun as <- <-. split.
    + eapply siftup_heap; [|exact Hsift].
      intros p c x y Hp Hc Hx Hy.
      pose proof (child_of_parent p c Hc) as [_ Hpc].
      destruct p as [|p]; [lia|]. destruct c as [|c]; [lia|].
      simpl in Hx, Hy.
      apply (Hheap (S p) (S c)); [lia|done|..]; rewrite Hlast; simpl.
      * rewrite lookup_app_l; [done|by eapply lookup_lt_Some].
      * rewrite lookup_app_l; [done|by eapply lookup_lt_Some].
    + intros y Hy. apply list_elem_of_lookup in Hy as (i & Hi).
      apply (heap_root_first heap returnitem Hheap) with i; [|done].
      by rewrite Hlast.
Qed.
End heap_order_facts.

(** ** The order in which [__ldm] takes entries from the queue *)

Lemma WeighedBoxes_lt_strict_weak_order : strict_weak_order WeighedBoxes_lt.
Proof.
  assert (∀ l1 l2, Boxes_lt l1 l2 = true → Boxes_lt l2 l1 = false) as Hasym.
  { intros [|b1 l1] [|b2 l2]; unfold Boxes_lt, Box_lt; try done.
    rewrite bool_decide_eq_true, bool_decide_eq_false. lia. }
  assert (∀ l1 l2 l3, Boxes_lt l2 l1 = false → Boxes_lt l3 l2 = false →
            Boxes_lt l3 l1 = false) as Htrans.
  { intros [|b1 l1] [|b2 l2] [|b3 l3]; unfold Boxes_lt, Box_lt; try done.
    rewrite !bool_decide_eq_false. lia. }
  unfold strict_weak_order, not_after, WeighedBoxes_lt. split_and!.
  - intros [d [|b l]]; simpl; rewrite decide_True by done; [done|].
    apply bool_decide_eq_false. lia.
  - intros [d1 l1] [d2 l2]; simpl.
    destruct (decide (d1 = d2)) as [->|Hne].
    + rewrite decide_True by done. apply Hasym.
    + rewrite decide_False by done.
      rewrite bool_decide_eq_true, bool_decide_eq_false. lia.
  - intros [d1 l1] [d2 l2] [d3 l3]; simpl.
    destruct (decide (d2 = d1)) as [H21|H21], (decide (d3 = d2)) as [H32|H32].
    + rewrite decide_True by congruence. apply Htrans.
    + rewrite decide_False by congruence. rewrite !bool_decide_eq_false. lia.
    + rewrite decide_False by congruence. rewrite !bool_decide_eq_false. lia.
    + rewrite !bool_decide_eq_false. intros H1 H2.
      rewrite decide_False by lia. rewrite bool_decide_eq_false. lia.
Qed.

Lemma not_after_weight_difference (a e : WeighedBoxes) :
  not_after WeighedBoxes_lt a e → weight_difference a ≤ weight_difference e.
Proof.
  unfold not_after, WeighedBoxes_lt. case_decide as Heq; [lia|].
  rewrite bool_decide_eq_false. lia.
Qed.

Lemma ldm_step_ordered (n : nat) (heap : list WeighedBoxes) :
  is_heap WeighedBoxes_lt heap →
  (2 ≤ length heap)%nat → (0 < n)%nat → Forall (entry_inv n) heap →
  ∃ a b rest wb heap',
    heap ≡ₚ a :: b :: rest
    ∧ weigh_boxes (combine_boxes (boxes a) (boxes b)) = Returns wb
    ∧ ldm_step heap = Returns heap'
    ∧ heap' ≡ₚ wb :: rest
    ∧ is_heap WeighedBoxes_lt heap'
    ∧ (∀ e, e ∈ b :: rest → weight_difference a ≤ weight_difference e)
    ∧ (∀ e, e ∈ rest → weight_difference b ≤ weight_difference e).
Proof.
  intros Hheap Hlen Hn Hinv. unfold ldm_step.
  destruct (heappop_Returns WeighedBoxes_lt heap) as (a & h1 & Hpop1 & Hp1).
  { intros ->. simpl in Hlen. lia. }
  destruct (heappop_heap _ WeighedBoxes_lt_strict_weak_order _ _ _ Hheap Hpop1)
    as (Hheap1 & Hmin1).
  rewrite Hpop1. cbn [obind].
  destruct (heappop_Returns WeighedBoxes_lt h1) as (b & h2 & Hpop2 & Hp2).
  { intros ->. apply Permutation_length in Hp1. simpl in Hp1. lia. }
  destruct (heappop_heap _ WeighedBoxes_lt_strict_weak_order _ _ _ Hheap1 Hpop2)
    as (Hheap2 & Hmin2).
  rewrite Hpop2. cbn [obind].
  assert (heap ≡ₚ a :: b :: h2) as Hperm by (by rewrite Hp2).
  rewrite Hperm in Hinv.
  apply Forall_cons in Hinv as [Ha Hinv]. apply Forall_cons in Hinv as [Hb Hinv].
  destruct (weigh_boxes_Returns (combine_boxes (boxes a) (boxes b))) as (d & Hw).
  { intros Hnil. apply (f_equal length) in Hnil.
    destruct Ha as (Ha & _), Hb as (Hb & _).
    rewrite combine_boxes_length in Hnil by congruence. simpl in Hnil. lia. }
  rewrite Hw. cbn [obind].
  destruct (heappush_Returns WeighedBoxes_lt h2
              (mkWeighedBoxes d (combine_boxes (boxes a) (boxes b))))
    as (heap' & Hpush & Hp3).
  rewrite Hpush.
  exists a, b, h2, (mkWeighedBoxes d (combine_boxes (boxes a) (boxes b))), heap'.
  split_and!; [done..| | |].
  - by eapply heappush_heap; [apply WeighedBoxes_lt_strict_weak_order| |exact Hpush].
  - intros e He. apply not_after_weight_difference, Hmin1.
    rewrite <-Hp1. right. by rewrite <-Hp2.
  - intros e He. apply not_after_weight_difference, Hmin2.
    rewrite <-Hp2. by right.
Qed.

Lemma ldm_reaches_is_heap (n : nat) (h h' : list WeighedBoxes) :
  ldm_reaches h h' → (0 < n)%nat → Forall (entry_inv n) h →
  is_heap WeighedBoxes_lt h → is_heap WeighedBoxes_lt h'.
Proof.
  intros Hreach Hn. induction Hreach as [h|h h1 h2 Hlen Hstep _ IH]; intros Hinv Hheap;
    [done|].
  destruct (ldm_step_inv n h h1 ltac:(lia) Hn Hinv Hstep) as (Hinv1 & _).
  apply IH; [done|].
  destruct (ldm_step_ordered n h Hheap ltac:(lia) Hn Hinv)
    as (a & b & rest & wb & heap' & _ & _ & Hrun & _ & Hheap' & _).
  by assert (heap' = h1) as <- by congruence.
Qed.

Lemma entry_weighed_spread (n : nat) (e : WeighedBoxes) :
  (0 < n)%nat → entry_inv n e → entry_weighed e →
  ∃ s, spread (boxes e) = Returns s ∧ weight_difference e = - s.
Proof.
  intros Hn (Hlen & _) Hw. destruct (spread_Returns (boxes e)) as (s & Hs & Hw' & _).
  { intros Hnil. rewrite Hnil in Hlen. simpl in Hlen. lia. }
  exists s. split; [done|]. unfold entry_weighed in Hw. rewrite Hw' in Hw.
  by injection Hw as <-.
Qed.

(** X11.  The queue of [__ldm] yields the lists of boxes of greatest
    spread first.  For a non-empty list of articles of positive weight and
    at least two boxes, at every iteration of the [while] loop the two
    entries taken from the queue and combined are such that no entry left
    in the queue has a greater spread than either of them, and the first
    taken has a spread at least that of the second. *)
Theorem ldm_combines_greatest_spreads (articles : list Article) (number_of_boxes : Z) :
  articles ≠ [] →
  Forall (λ a, 0 < get_weight_in_grams a) articles →
  2 ≤ number_of_boxes →
  ∃ heap0,
    ldm_init articles number_of_boxes = Returns heap0
    ∧ ∀ heap, ldm_reaches heap0 heap → (1 < length heap)%nat →
        ∃ largest next_largest rest wb heap' sl sn,
          heap ≡ₚ largest :: next_largest :: rest
          ∧ weigh_boxes (combine_boxes (boxes largest) (boxes next_largest)) = Returns wb
          ∧ ldm_step heap = Returns heap'
          ∧ heap' ≡ₚ wb :: rest
          ∧ spread (boxes largest) = Returns sl
          ∧ spread (boxes next_largest) = Returns sn
          ∧ sn ≤ sl
          ∧ ∀ e, e ∈ rest → ∃ s, spread (boxes e) = Returns s ∧ s ≤ sn.
Proof.
  intros Hne Hpos Hn.
  destruct (ldm_init_Returns articles number_of_boxes ltac:(lia) Hpos)
    as (heap0 & Hinit & _ & Hinv0 & _).
  exists heap0. split; [done|]. intros heap Hreach Hlen.
  assert (0 < Z.to_nat number_of_boxes)%nat as Hn' by lia.
  assert (is_heap WeighedBoxes_lt heap0) as Hheap0.
  { unfold ldm_init in Hinit.
    destruct (ldm_seed articles number_of_boxes); cbn [obind] in Hinit; try done.
    by eapply heapify_heap; [apply WeighedBoxes_lt_strict_weak_order|exact Hinit]. }
  assert (Forall entry_weighed heap0) as Hw0.
  { eapply Forall_impl; [by eapply (ldm_init_seeded articles number_of_boxes); [lia|]|].
    by intros wb (a & _ & _ & Hw). }
  pose proof (ldm_reaches_is_heap _ _ _ Hreach Hn' Hinv0 Hheap0) as Hheap.
  destruct (ldm_reaches_inv _ _ _ Hreach Hn' Hinv0) as (Hinv & _).
  assert (Forall entry_weighed heap) as Hw.
  { apply (ldm_reaches_Forall entry_weighed (Z.to_nat number_of_boxes) heap0);
      [|done..].
    intros a b wb _ _ _ _ Hwb. by apply weigh_boxes_boxes in Hwb as [_ ?]. }
  destruct (ldm_step_ordered _ heap Hheap ltac:(lia) Hn' Hinv)
    as (a & b & rest & wb & heap' & Hperm & Hwb & Hrun & Hperm' & _ & Hmin1 & Hmin2).
  rewrite Hperm in Hinv, Hw.
  apply Forall_cons in Hinv as [Ha Hinv]. apply Forall_cons in Hinv as [Hb Hinv].
  apply Forall_cons in Hw as [Hwa Hw]. apply Forall_cons in Hw as [Hwb' Hw].
  destruct (entry_weighed_spread _ a Hn' Ha Hwa) as (sl & Hsl & Hdl).
  destruct (entry_weighed_spread _ b Hn' Hb Hwb') as (sn & Hsn & Hdn).
  exists a, b, rest, wb, heap', sl, sn. split_and!; [done..| |].
  - specialize (Hmin1 b ltac:(by left)). lia.
  - intros e He. rewrite Forall_forall in Hinv, Hw.
    destruct (entry_weighed_spread _ e Hn' (Hinv e He) (Hw e He)) as (s & Hs & Hd).
    exists s. split; [done|]. specialize (Hmin2 e He). lia.
Qed.

Lemma ldm_combines_greatest_spreads_witness :
  articles_of [900; 800; 700; 600; 500] ≠ []
  ∧ Forall (λ a, 0 < get_weight_in_grams a) (articles_of [900; 800; 700; 600; 500])
  ∧ 2 ≤ 2
  ∧ ∃ heap0,
      ldm_init (articles_of [900; 800; 700; 600; 500]) 2 = Returns heap0
      ∧ ∀ heap, ldm_reaches heap0 heap → (1 < length heap)%nat →
          ∃ largest next_largest rest wb heap' sl sn,
            heap ≡ₚ largest :: next_largest :: rest
            ∧ weigh_boxes (combine_boxes (boxes largest) (boxes next_largest))
              = Returns wb
            ∧ ldm_step heap = Returns heap'
            ∧ heap' ≡ₚ wb :: rest
            ∧ spread (boxes largest) = Returns sl
            ∧ spread (boxes next_largest) = Returns sn
            ∧ sn ≤ sl
            ∧ ∀ e, e ∈ rest → ∃ s, spread (boxes e) = Returns s ∧ s ≤ sn.
Proof.
  assert (articles_of [900; 800; 700; 600; 500] ≠ []) as Hne by discriminate.
  assert (Forall (λ a, 0 < get_weight_in_grams a)
            (articles_of [900; 800; 700; 600; 500])) as Hpos
    by (repeat constructor).
  assert (2 ≤ 2) as Hn by lia.
  exact (conj Hne (conj Hpos (conj Hn
           (ldm_combines_greatest_spreads _ 2 Hne Hpos Hn)))).
Defined.

(** ** Guards and the order of the input *)

(** X12.  [__ldm] relies on the checks [pack] makes before calling it: on
    an empty list of articles it raises [IndexError] (the last [heappop]
    finds the queue empty), and on a non-empty list with a number of boxes
    below 1 it raises [IndexError] too ([boxes[0]] of an empty list). *)
Theorem ldm_unguarded (articles : list Article) (number_of_boxes : Z) :
  ldm [] number_of_boxes = Raises IndexError
  ∧ (articles ≠ [] → number_of_boxes < 1 →
     ldm articles number_of_boxes = Raises IndexError).
Proof.
  split; [reflexivity|]. intros Hne Hn. unfold ldm, ldm_init, ldm_seed.
  destruct (sorted_reverse get_weight_in_grams articles) as [|a l] eqn:Hs.
  { apply (f_equal length) in Hs. rewrite length_sorted_reverse in Hs.
    destruct articles; [done|discriminate]. }
  cbn [omap]. unfold seed_boxes at 1, empty_boxes.
  replace (Z.to_nat number_of_boxes) with 0%nat by lia. reflexivity.
Qed.

Lemma ldm_unguarded_witness :
  articles_of [30; 20] ≠ []
  ∧ 0 < 1
  ∧ ldm (articles_of [30; 20]) 0 = Raises IndexError.
Proof.
  assert (articles_of [30; 20] ≠ []) as Hne by discriminate.
  assert (0 < 1) as Hn by lia.
  exact (conj Hne (conj Hn (proj2 (ldm_unguarded (articles_of [30; 20]) 0) Hne Hn))).
Defined.

(** X16.  When [pack] raises.  For articles of positive weight, [pack]
    raises exactly when the list is not empty and the number of boxes is
    below 1, and then it is the [ValueError] that names the number; on an
    empty list, or with a number of boxes at least 1, it returns. *)
Theorem pack_raises_exactly (articles : list Article) (number_of_boxes : Z) :
  Forall (λ a, 0 < get_weight_in_grams a) articles →
  (articles ≠ [] → number_of_boxes < 1 →
   pack articles number_of_boxes
   = Raises (ValueError ("Number of boxes must be at least 1, not "
                         +:+ pretty number_of_boxes +:+ ".")))
  ∧ (articles = [] ∨ 1 ≤ number_of_boxes →
     ∃ bs, pack articles number_of_boxes = Returns bs).
Proof.
  intros Hpos. split.
  - intros Hne Hn. destruct articles as [|a l]; [done|]. by apply pack_invalid_count.
  - intros [->|Hn]; [by eexists|].
    destruct (pack_Returns articles number_of_boxes Hn Hpos) as (bs & Hrun & _).
    by exists bs.
Qed.

Lemma pack_raises_exactly_witness :
  Forall (λ a, 0 < get_weight_in_grams a) (articles_of [5; 6])
  ∧ articles_of [5; 6] ≠ []
  ∧ -1 < 1
  ∧ pack (articles_of [5; 6]) (-1)
    = Raises (ValueError "Number of boxes must be at least 1, not -1.")
  ∧ ∃ bs, pack (articles_of [5; 6]) 2 = Returns bs.
Proof.
  assert (Forall (λ a, 0 < get_weight_in_grams a) (articles_of [5; 6])) as Hpos
    by (repeat constructor).
  assert (articles_of [5; 6] ≠ []) as Hne by discriminate.
  assert (-1 < 1) as Hn by lia.
  assert (articles_of [5; 6] = [] ∨ 1 ≤ 2) as Hok by (right; lia).
  exact (conj Hpos (conj Hne (conj Hn
           (conj (proj1 (pack_raises_exactly (articles_of [5; 6]) (-1) Hpos) Hne Hn)
                 (proj2 (pack_raises_exactly (articles_of [5; 6]) 2 Hpos) Hok))))).
Defined.

Lemma sorted_reverse_weights_unique (l1 l2 : list Article) :
  l1 ≡ₚ l2 →
  sorted_reverse get_weight_in_grams l1 = sorted_reverse get_weight_in_grams l2.
Proof.
  intros Hp.
  assert (Transitive (key_ge get_weight_in_grams)) as Htrans.
  { intros a b c. unfold key_ge. lia. }
  apply (Sorted_unique_strong (key_ge get_weight_in_grams)).
  - intros [w1] [w2] _ _. unfold key_ge. simpl. intros H1 H2. f_equal. lia.
  - apply sorted_reverse_Sorted.
  - apply sorted_reverse_Sorted.
  - by rewrite !sorted_reverse_Permutation.
Qed.

(** X13.  The packing does not depend on the order in which the articles
    are given: for two lists with the same articles in another order,
    [greedy] returns the same boxes (the same weights at the same places),
    and so does [pack] for any number of boxes other than 1.  With one box
    [pack] hands the list to the constructor as it is, so the one box
    holds the articles in the order of the input. *)
Theorem packing_order_independent (articles articles' : list Article)
    (number_of_boxes : Z) :
  articles ≡ₚ articles' →
  greedy articles number_of_boxes = greedy articles' number_of_boxes
  ∧ (number_of_boxes ≠ 1 →
     pack articles number_of_boxes = pack articles' number_of_boxes)
  ∧ pack articles 1 = Returns [Box_init articles].
Proof.
  intros Hp. pose proof (sorted_reverse_weights_unique _ _ Hp) as Hs. split_and!.
  - unfold greedy. by rewrite Hs.
  - intros H1. unfold pack.
    destruct articles as [|a l], articles' as [|a' l'].
    + done.
    + by apply Permutation_nil_l in Hp.
    + by apply Permutation_nil_r in Hp.
    + destruct (decide (number_of_boxes < 1)); [done|].
      destruct (decide (number_of_boxes = 1)); [done|].
      unfold ldm, ldm_init, ldm_seed. by rewrite Hs.
  - by destruct articles.
Qed.

Lemma packing_order_independent_witness :
  articles_of [800; 900; 700; 600; 500] ≡ₚ articles_of [900; 800; 700; 600; 500]
  ∧ greedy (articles_of [800; 900; 700; 600; 500]) 2
    = greedy (articles_of [900; 800; 700; 600; 500]) 2
  ∧ (2 ≠ 1 →
     pack (articles_of [800; 900; 700; 600; 500]) 2
     = pack (articles_of [900; 800; 700; 600; 500]) 2)
  ∧ pack (articles_of [800; 900; 700; 600; 500]) 1
    = Returns [Box_init (articles_of [800; 900; 700; 600; 500])].
Proof.
  assert (articles_of [800; 900; 700; 600; 500]
          ≡ₚ articles_of [900; 800; 700; 600; 500]) as Hp
    by apply perm_swap.
  exact (conj Hp (packing_order_independent _ _ 2 Hp)).
Defined.

(** ** No more articles than boxes *)

Lemma lone_boxes_cons (b : Box) (bs : list Box) :
  lone_boxes (b :: bs) → lone_boxes bs.
Proof.
  intros (Hc & Hl & Hp). apply Forall_cons in Hc as [_ Hc].
  apply Forall_cons in Hl as [_ Hl].
  rewrite packed_items_cons in Hp. apply Forall_app in Hp as [_ Hp]. done.
Qed.

(** In a box of such a list, there are articles exactly when the total is
    positive, and none exactly when it is 0. *)
Lemma lone_boxes_total (bs : list Box) (b : Box) :
  lone_boxes bs → b ∈ bs →
  (box_items b = [] ∧ get_total_weight_in_grams b = 0)
  ∨ (box_items b ≠ [] ∧ 0 < get_total_weight_in_grams b).
Proof.
  intros (Hc & Hl & Hp) Hb. rewrite Forall_forall in Hc, Hl.
  specialize (Hc b Hb). specialize (Hl b Hb).
  assert (Forall (λ a, 0 < get_weight_in_grams a) (box_items b)) as Hpb.
  { apply Forall_forall. intros a Ha. rewrite Forall_forall in Hp. apply Hp.
    unfold packed_items. apply list_elem_of_join. exists (box_items b).
    split; [done|]. by apply (list_elem_of_fmap_2 get_box_items). }
  unfold box_consistent in Hc. unfold lone in Hl. unfold get_total_weight_in_grams.
  destruct (box_items b) as [|a [|a' l]]; simpl in Hl; [|clear Hl|lia].
  - left. by rewrite Hc.
  - right. split; [done|]. rewrite Hc. cbn [fmap list_fmap].
    rewrite py_sum_cons, py_sum_nil. rewrite Forall_singleton in Hpb. lia.
Qed.

(** In descending order the boxes that hold an article come first: a box
    holds one exactly when its position is below the number of articles. *)
Lemma lone_boxes_prefix (bs : list Box) (i : nat) (b : Box) :
  boxes_descending bs → lone_boxes bs → bs !! i = Some b →
  box_items b ≠ [] ↔ (i < length (packed_items bs))%nat.
Proof.
  intros Hs. apply Sorted_StronglySorted in Hs.
  2:{ intros x y z. unfold key_ge. lia. }
  revert i. induction Hs as [|b0 l _ IH Hall]; intros i Hlone Hi; [done|].
  pose proof (lone_boxes_cons _ _ Hlone) as Hlone'.
  rewrite packed_items_cons, length_app.
  destruct (lone_boxes_total _ b0 Hlone ltac:(by left)) as [(Hnil & H0)|(Hne & Hpos)].
  - assert (∀ b', b' ∈ l → box_items b' = []) as Hempty.
    { intros b' Hb'. rewrite Forall_forall in Hall. specialize (Hall b' Hb').
      unfold key_ge in Hall.
      destruct (lone_boxes_total _ b' Hlone' Hb') as [(? & _)|(_ & ?)]; [done|lia]. }
    assert (packed_items l = []) as Hpl.
    { clear -Hempty. induction l as [|b' l IHl]; [done|].
      rewrite packed_items_cons, (Hempty b') by (by left).
      apply IHl. intros b'' Hb''. apply Hempty. by right. }
    rewrite Hnil, Hpl. simpl. split; [|lia]. intros Hb. exfalso. apply Hb.
    destruct i as [|i]; simpl in Hi.
    + by injection Hi as <-.
    + apply Hempty. by eapply list_elem_of_lookup_2.
  - destruct Hlone as (_ & Hl & _). apply Forall_cons in Hl as [Hl0 _].
    unfold lone in Hl0.
    assert (length (box_items b0) = 1)%nat as Hlen1.
    { destruct (box_items b0) as [|? [|? ?]]; simpl in *; [done|done|lia]. }
    rewrite Hlen1. destruct i as [|i]; simpl in Hi.
    + injection Hi as <-. split; [lia|done].
    + rewrite (IH i Hlone' Hi). lia.
Qed.

Lemma lone_combine_boxes (n : nat) (a b : WeighedBoxes) :
  entry_inv n a → entry_inv n b →
  lone_boxes (boxes a) → lone_boxes (boxes b) →
  (length (packed_items (boxes a)) + length (packed_items (boxes b)) ≤ n)%nat →
  lone_boxes (combine_boxes (boxes a) (boxes b)).
Proof.
  intros (Hla & Hca & Hda) (Hlb & Hcb & Hdb) Hlonea Hloneb Hcount.
  unfold lone_boxes. split_and!.
  - apply combine_boxes_consistent.
  - unfold combine_boxes. rewrite sorted_reverse_Permutation.
    apply Forall_forall. intros c Hc.
    apply list_elem_of_lookup in Hc as (i & Hi).
    apply lookup_zip_with_Some in Hi as (x & y & -> & Hx & Hy).
    apply reverse_lookup_Some in Hy as (Hy & Hilt).
    pose proof (lone_boxes_prefix _ _ _ Hda Hlonea Hx) as Hpx.
    pose proof (lone_boxes_prefix _ _ _ Hdb Hloneb Hy) as Hpy.
    destruct Hlonea as (_ & Hl1 & _), Hloneb as (_ & Hl2 & _).
    rewrite Forall_forall in Hl1, Hl2.
    specialize (Hl1 x ltac:(by eapply list_elem_of_lookup_2)).
    specialize (Hl2 y ltac:(by eapply list_elem_of_lookup_2)).
    unfold lone in *. unfold combine, get_box_items. simpl. rewrite length_app.
    destruct (box_items x) as [|ax lx] eqn:Hix; [simpl; lia|].
    destruct (box_items y) as [|ay ly] eqn:Hiy; [simpl in *; lia|].
    exfalso.
    assert (i < length (packed_items (boxes a)))%nat by (by apply Hpx).
    assert (length (boxes b) - S i < length (packed_items (boxes b)))%nat
      by (by apply Hpy).
    lia.
  - rewrite combine_boxes_items by congruence.
    destruct Hlonea as (_ & _ & Hp1), Hloneb as (_ & _ & Hp2).
    apply Forall_app. done.
Qed.

Lemma lone_seeded_boxes (number_of_boxes : Z) (article : Article) :
  0 < get_weight_in_grams article →
  lone_boxes (seeded_boxes number_of_boxes article).
Proof.
  intros Hw. unfold lone_boxes. rewrite seeded_boxes_items. split_and!.
  - constructor; [apply add_article_consistent, Box_init_consistent|].
    apply Forall_replicate, Box_init_consistent.
  - constructor; [unfold lone; simpl; lia|].
    apply Forall_replicate. unfold lone. simpl. lia.
  - by constructor.
Qed.

Lemma queue_items_length_le (heap : list WeighedBoxes) (a b : WeighedBoxes)
    (rest : list WeighedBoxes) :
  heap ≡ₚ a :: b :: rest →
  (length (packed_items (boxes a)) + length (packed_items (boxes b))
   ≤ length (queue_items heap))%nat.
Proof.
  intros Hp. rewrite Hp, !queue_items_cons, !length_app. lia.
Qed.

Lemma ldm_reaches_lone (n : nat) (h h' : list WeighedBoxes) :
  ldm_reaches h h' → (0 < n)%nat → Forall (entry_inv n) h →
  (length (queue_items h) ≤ n)%nat →
  Forall (λ wb, lone_boxes (boxes wb)) h →
  Forall (λ wb, lone_boxes (boxes wb)) h'.
Proof.
  intros Hreach Hn.
  induction Hreach as [h|h h1 h2 Hlen Hstep _ IH]; intros Hinv Hcount Hlone; [done|].
  destruct (ldm_step_inv n h h1 ltac:(lia) Hn Hinv Hstep) as (Hinv1 & Hitems1 & _).
  apply IH; [done|by rewrite Hitems1|].
  destruct (ldm_step_weighed n h ltac:(lia) Hn Hinv)
    as (a & b & rest & wb & heap' & Hperm & Hw & Hrun & Hperm').
  assert (heap' = h1) as -> by congruence.
  pose proof (queue_items_length_le _ _ _ _ Hperm) as Hab.
  rewrite Hperm in Hinv, Hlone.
  apply Forall_cons in Hinv as [Ha Hinv]. apply Forall_cons in Hinv as [Hb _].
  apply Forall_cons in Hlone as [Hla Hlone]. apply Forall_cons in Hlone as [Hlb Hlone].
  rewrite Hperm'. constructor; [|done].
  apply weigh_boxes_boxes in Hw as [-> _].
  apply (lone_combine_boxes n); [done..|lia].
Qed.

(** X14.  When there are no more articles than boxes, [pack] puts no two
    articles into one box: for articles of positive weight and a number
    of boxes at least 1 and at least the number of articles, every box
    returned holds at most one article (and together the boxes hold the
    input articles). *)
Theorem pack_one_article_per_box (articles : list Article) (number_of_boxes : Z) :
  Forall (λ a, 0 < get_weight_in_grams a) articles →
  1 ≤ number_of_boxes →
  Z.of_nat (length articles) ≤ number_of_boxes →
  ∃ bs, pack articles number_of_boxes = Returns bs
        ∧ packed_items bs ≡ₚ articles
        ∧ Forall (λ b, (length (get_box_items b) ≤ 1)%nat) bs.
Proof.
  intros Hpos Hn Hcount.
  destruct (pack_Returns articles number_of_boxes Hn Hpos)
    as (bs & Hrun & _ & _ & _ & Hitems).
  exists bs. split_and!; [done..|].
  unfold pack in Hrun. destruct articles as [|a0 articles].
  { injection Hrun as <-. apply Forall_replicate. simpl. lia. }
  rewrite decide_False in Hrun by lia. case_decide as H1.
  { injection Hrun as <-. constructor; [|done]. simpl in *. lia. }
  destruct (ldm_final (a0 :: articles) number_of_boxes ltac:(done) Hn Hpos)
    as (heap0 & final & Hinit & Hinv0 & Hreach & Hldm).
  assert (bs = boxes final) as -> by congruence.
  pose proof (ldm_init_seeded _ _ _ Hn Hinit) as Hseeded.
  destruct (ldm_init_Returns (a0 :: articles) number_of_boxes Hn Hpos)
    as (heap0' & Hinit' & _ & _ & Hitems0).
  assert (heap0' = heap0) as -> by congruence.
  assert (Forall (λ wb, lone_boxes (boxes wb)) [final]) as Hfinal.
  { apply (ldm_reaches_lone (Z.to_nat number_of_boxes) heap0); [done|lia|done| |].
    - rewrite Hitems0. lia.
    - eapply Forall_impl; [exact Hseeded|]. intros wb (a & Ha & -> & _).
      apply lone_seeded_boxes. rewrite Forall_forall in Hpos. by apply Hpos. }
  apply (proj1 (Forall_singleton _ _)) in Hfinal. by destruct Hfinal as (_ & Hl & _).
Qed.

Lemma pack_one_article_per_box_witness :
  Forall (λ a, 0 < get_weight_in_grams a) (articles_of [300; 900; 300])
  ∧ 1 ≤ 4
  ∧ Z.of_nat (length (articles_of [300; 900; 300])) ≤ 4
  ∧ ∃ bs, pack (articles_of [300; 900; 300]) 4 = Returns bs
          ∧ packed_items bs ≡ₚ articles_of [300; 900; 300]
          ∧ Forall (λ b, (length (get_box_items b) ≤ 1)%nat) bs.
Proof.
  assert (Forall (λ a, 0 < get_weight_in_grams a) (articles_of [300; 900; 300])) as Hpos
    by (repeat constructor).
  assert (1 ≤ 4) as Hn by lia.
  assert (Z.of_nat (length (articles_of [300; 900; 300])) ≤ 4) as Hc by (simpl; lia).
  exact (conj Hpos (conj Hn (conj Hc
           (pack_one_article_per_box _ 4 Hpos Hn Hc)))).
Defined.

Lemma empty_box_exists (bs : list Box) :
  (length (packed_items bs) < length bs)%nat → ∃ b, b ∈ bs ∧ box_items b = [].
Proof.
  induction bs as [|b0 l IH]; simpl; [lia|]. intros Hlen.
  rewrite packed_items_cons, length_app in Hlen.
  destruct (box_items b0) as [|a0 l0] eqn:Hb0.
  - exists b0. split; [by left|done].
  - destruct IH as (b & Hb & Hnil); [simpl in Hlen; lia|].
    exists b. split; [by right|done].
Qed.

Lemma greedy_loop_lone (articles : list Article) (bs gs : list Box) :
  lone_boxes bs →
  Forall (λ a, 0 < get_weight_in_grams a) articles →
  (length (packed_items bs) + length articles ≤ length bs)%nat →
  ofoldl greedy_place bs articles = Returns gs →
  lone_boxes gs.
Proof.
  revert bs. induction articles as [|a articles IH]; intros bs Hlone Hpos Hcount Hrun;
    simpl in Hrun.
  - by injection Hrun as <-.
  - apply Forall_cons in Hpos as [Ha Hpos]. simpl in Hcount.
    destruct (greedy_place_Returns bs a) as (i & b & Hplace & Hb & Hmin).
    { intros ->. simpl in Hcount. lia. }
    rewrite Hplace in Hrun. cbn [obind] in Hrun.
    assert (box_items b = []) as Hbnil.
    { destruct (empty_box_exists bs ltac:(lia)) as (b' & Hb' & Hnil').
      rewrite Forall_forall in Hmin. specialize (Hmin b' Hb'). simpl in Hmin.
      destruct (lone_boxes_total bs b' Hlone Hb') as [(_ & H0)|(? & _)]; [|done].
      destruct (lone_boxes_total bs b Hlone ltac:(by eapply list_elem_of_lookup_2))
        as [(? & _)|(_ & ?)]; [done|lia]. }
    pose proof (packed_items_insert bs i b a Hb) as Hitems.
    apply (IH (<[i := add_article b a]> bs)); [|done| |done].
    + destruct Hlone as (Hc & Hl & Hp). split_and!.
      * by apply Forall_insert_consistent.
      * apply Forall_insert; [done|]. unfold lone, add_article. simpl.
        rewrite Hbnil. simpl. lia.
      * rewrite Hitems. by constructor.
    + rewrite (Permutation_length Hitems), length_insert. simpl. lia.
Qed.

(** X15.  When there are no more articles than boxes, [greedy] puts no two
    articles into one box either: for articles of positive weight and a
    number of boxes at least 1 and at least the number of articles, every
    box returned holds at most one article. *)
Theorem greedy_one_article_per_box (articles : list Article) (number_of_boxes : Z) :
  Forall (λ a, 0 < get_weight_in_grams a) articles →
  1 ≤ number_of_boxes →
  Z.of_nat (length articles) ≤ number_of_boxes →
  ∃ gs, greedy articles number_of_boxes = Returns gs
        ∧ packed_items gs ≡ₚ articles
        ∧ Forall (λ b, (length (get_box_items b) ≤ 1)%nat) gs.
Proof.
  intros Hpos Hn Hcount.
  destruct (greedy_Returns articles number_of_boxes Hn) as (gs & Hrun & _ & Hitems & _).
  exists gs. split_and!; [done..|].
  unfold greedy in Hrun.
  apply greedy_loop_lone in Hrun as (_ & Hl & _); [done| | |].
  - unfold empty_boxes, lone_boxes. rewrite packed_items_replicate_empty. split_and!.
    + apply Forall_replicate, Box_init_consistent.
    + apply Forall_replicate. unfold lone. simpl. lia.
    + constructor.
  - by rewrite sorted_reverse_Permutation.
  - unfold empty_boxes.
    rewrite packed_items_replicate_empty, length_replicate, length_sorted_reverse.
    simpl. lia.
Qed.

Lemma greedy_one_article_per_box_witness :
  Forall (λ a, 0 < get_weight_in_grams a) (articles_of [300; 900; 300])
  ∧ 1 ≤ 3
  ∧ Z.of_nat (length (articles_of [300; 900; 300])) ≤ 3
  ∧ ∃ gs, greedy (articles_of [300; 900; 300]) 3 = Returns gs
          ∧ packed_items gs ≡ₚ articles_of [300; 900; 300]
          ∧ Forall (λ b, (length (get_box_items b) ≤ 1)%nat) gs.
Proof.
  assert (Forall (λ a, 0 < get_weight_in_grams a) (articles_of [300; 900; 300])) as Hpos
    by (repeat constructor).
  assert (1 ≤ 3) as Hn by lia.
  assert (Z.of_nat (length (articles_of [300; 900; 300])) ≤ 3) as Hc by (simpl; lia).
  exact (conj Hpos (conj Hn (conj Hc
           (greedy_one_article_per_box _ 3 Hpos Hn Hc)))).
Defined.
